(** * Solar-Simulator: the per-frame simulation update (simulationUpdate.js)

  A shallow embedding of [updateCelestials], [updateSpacecraft],
  [updateTrajectoryLine], [updateAiPilot], [objectRadius] and
  [calculateFuturePosition], together with the three.js vector and
  quaternion operations they call.

  Numbers.  A JavaScript number that holds a finite value is a real
  number here ([R]); rounding is not modelled.  The one place where the
  source manufactures a non-number out of absent data ([objectRadius])
  is modelled with an explicit [NaN].  Where a property depends on
  rounding or overflow, the function is embedded a second time over
  binary64 (module [B64]).

  Objects.  The three module-level scratch vectors of simulationUpdate.js
  are a store ([Scratch]); a JavaScript variable bound to one of them is a
  reference ([vref]) and is read at the point of use, so that two names
  for one scratch vector alias as they do in the source. *)

From Stdlib Require Import Reals Lra Lia List Bool Psatz String.
From Stdlib Require PrimFloat FloatOps SpecFloat.
Import ListNotations.
Local Open Scope R_scope.

(** ** three.js: Vector3 *)

Record Vector3 : Type := mkVector3 { vx : R; vy : R; vz : R }.

Definition Reqb (a b : R) : bool := if Req_dec_T a b then true else false.

Module V3.

(** [new THREE.Vector3()] *)
Definition zero : Vector3 := mkVector3 0 0 0.

Definition set (x y z : R) : Vector3 := mkVector3 x y z.

Definition add (a v : Vector3) : Vector3 :=
  mkVector3 (vx a + vx v) (vy a + vy v) (vz a + vz v).

Definition subVectors (a b : Vector3) : Vector3 :=
  mkVector3 (vx a - vx b) (vy a - vy b) (vz a - vz b).

Definition multiplyScalar (a : Vector3) (s : R) : Vector3 :=
  mkVector3 (vx a * s) (vy a * s) (vz a * s).

(** [divideScalar(s) { return this.multiplyScalar(1 / s) }] *)
Definition divideScalar (a : Vector3) (s : R) : Vector3 :=
  multiplyScalar a (1 / s).

Definition dot (a v : Vector3) : R :=
  vx a * vx v + vy a * vy v + vz a * vz v.

Definition lengthSq (a : Vector3) : R :=
  vx a * vx a + vy a * vy a + vz a * vz a.

Definition length (a : Vector3) : R := sqrt (lengthSq a).

(** [normalize() { return this.divideScalar(this.length() || 1) }] *)
Definition normalize (a : Vector3) : Vector3 :=
  divideScalar a (if Req_dec_T (length a) 0 then 1 else length a).

Definition crossVectors (a b : Vector3) : Vector3 :=
  mkVector3 (vy a * vz b - vz a * vy b)
            (vz a * vx b - vx a * vz b)
            (vx a * vy b - vy a * vx b).

Definition distanceToSquared (a v : Vector3) : R :=
  let dx := vx a - vx v in
  let dy := vy a - vy v in
  let dz := vz a - vz v in
  dx * dx + dy * dy + dz * dz.

Definition distanceTo (a v : Vector3) : R := sqrt (distanceToSquared a v).

(** [equals(v)]: componentwise [===], no tolerance. *)
Definition equals (a v : Vector3) : bool :=
  Reqb (vx v) (vx a) && Reqb (vy v) (vy a) && Reqb (vz v) (vz a).

(** [MathUtils.clamp(value, min, max) = Math.max(min, Math.min(max, value))] *)
Definition clamp (value lo hi : R) : R := Rmax lo (Rmin hi value).

(** [angleTo(v)] *)
Definition angleTo (a v : Vector3) : R :=
  let denominator := sqrt (lengthSq a * lengthSq v) in
  if Req_dec_T denominator 0 then PI / 2
  else
    let theta := dot a v / denominator in
    acos (clamp theta (-1) 1).

End V3.

(** ** three.js: Quaternion *)

Record Quaternion : Type := mkQuaternion { qx : R; qy : R; qz : R; qw : R }.

Module Quat.

Definition identity : Quaternion := mkQuaternion 0 0 0 1.

(** [setFromAxisAngle(axis, angle)] *)
Definition setFromAxisAngle (axis : Vector3) (angle : R) : Quaternion :=
  let halfAngle := angle / 2 in
  let s := sin halfAngle in
  mkQuaternion (vx axis * s) (vy axis * s) (vz axis * s) (cos halfAngle).

(** [multiplyQuaternions(a, b)] *)
Definition multiply (a b : Quaternion) : Quaternion :=
  mkQuaternion
    (qx a * qw b + qw a * qx b + qy a * qz b - qz a * qy b)
    (qy a * qw b + qw a * qy b + qz a * qx b - qx a * qz b)
    (qz a * qw b + qw a * qz b + qx a * qy b - qy a * qx b)
    (qw a * qw b - qx a * qx b - qy a * qy b - qz a * qz b).

(** [Vector3.applyQuaternion(q)] *)
Definition applyTo (v : Vector3) (q : Quaternion) : Vector3 :=
  let tx := 2 * (qy q * vz v - qz q * vy v) in
  let ty := 2 * (qz q * vx v - qx q * vz v) in
  let tz := 2 * (qx q * vy v - qy q * vx v) in
  mkVector3 (vx v + qw q * tx + qy q * tz - qz q * ty)
            (vy v + qw q * ty + qz q * tx - qx q * tz)
            (vz v + qw q * tz + qx q * ty - qy q * tx).

End Quat.

(** ** JavaScript values that can be absent or not-a-number *)

Inductive number : Type :=
| Num (r : R)
| NaN.

Inductive jsval : Type :=
| Undefined
| Number (n : number).

(** [a ?? b]: the right operand is taken only when the left one is
    [null] or [undefined]; a number, [NaN] included, is kept. *)
Definition nullish (a b : jsval) : jsval :=
  match a with
  | Undefined => b
  | Number _ => a
  end.

(** ToNumber: [undefined] converts to [NaN]. *)
Definition toNumber (a : jsval) : number :=
  match a with
  | Undefined => NaN
  | Number n => n
  end.

(** [a * b]: the result is always a number. *)
Definition jsMul (a b : jsval) : jsval :=
  match toNumber a, toNumber b with
  | Num r, Num s => Number (Num (r * s))
  | _, _ => Number NaN
  end.

(** [a > b]: false as soon as one side is [NaN]. *)
Definition jsGt (a b : jsval) : bool :=
  match toNumber a, toNumber b with
  | Num r, Num s => if Rgt_dec r s then true else false
  | _, _ => false
  end.

(** [Math.sign] *)
Definition Math_sign (r : R) : R :=
  if Rlt_dec 0 r then 1 else if Rlt_dec r 0 then -1 else 0.

(** [MathUtils.degToRad(degrees) = degrees * (Math.PI / 180)] *)
Definition degToRad (degrees : R) : R := degrees * (PI / 180).

(** ** The scratch vectors of simulationUpdate.js

    [const _updateShipForward], [const _updateTempVec3] and
    [const _updateTargetDirection] are allocated once and reused by every
    call.  three.js methods that take or fill a vector return that very
    object, so a variable bound to the result is one more name for the
    scratch vector. *)

Record Scratch : Type := mkScratch {
  _updateShipForward : Vector3;
  _updateTempVec3 : Vector3;
  _updateTargetDirection : Vector3
}.

Inductive vref : Type :=
| ref_updateShipForward
| ref_updateTempVec3
| ref_updateTargetDirection.

Definition M (A : Type) : Type := Scratch -> A * Scratch.

Definition ret {A : Type} (a : A) : M A := fun s => (a, s).

Definition bind {A B : Type} (c : M A) (k : A -> M B) : M B :=
  fun s => let (a, s') := c s in k a s'.

Declare Scope scratch_scope.
Delimit Scope scratch_scope with scratch.
Notation "x <- c ;; k" := (bind c (fun x => k))
  (at level 61, c at next level, right associativity) : scratch_scope.
Notation "c ;; k" := (bind c (fun _ => k))
  (at level 61, right associativity) : scratch_scope.

(** Dereference a scratch vector. *)
Definition read (r : vref) : M Vector3 :=
  fun s =>
    (match r with
     | ref_updateShipForward => _updateShipForward s
     | ref_updateTempVec3 => _updateTempVec3 s
     | ref_updateTargetDirection => _updateTargetDirection s
     end, s).

(** Overwrite a scratch vector in place; like the three.js setters, the
    result is the reference that was written. *)
Definition write (r : vref) (v : Vector3) : M vref :=
  fun s =>
    (r, match r with
        | ref_updateShipForward =>
            mkScratch v (_updateTempVec3 s) (_updateTargetDirection s)
        | ref_updateTempVec3 =>
            mkScratch (_updateShipForward s) v (_updateTargetDirection s)
        | ref_updateTargetDirection =>
            mkScratch (_updateShipForward s) (_updateTempVec3 s) v
        end).

(** ** Data model *)

(** An [Object3D] of the orbital scene graph.  The simulation only ever
    writes [rotation.y] on pivots and planet meshes, whose other Euler
    angles are zero and whose scale is one. *)
Record Object3D : Type := mkObject3D {
  position : Vector3;
  rotation_y : R
}.

(** A simulation object [{ mesh, pivot, speed, axialSpeed, moons }].
    A field the object lacks (or, for the speeds, one whose [typeof] is
    not ['number']) is [None]. *)
#[local] Set Warnings "-register-all".
Inductive Body : Type := mkBody {
  mesh : option Object3D;
  pivot : option Object3D;
  speed : option R;
  axialSpeed : option R;
  moons : option (list Body)
}.

(** The spacecraft mesh: position and orientation quaternion. *)
Record ShipMesh : Type := mkShipMesh {
  sm_position : Vector3;
  sm_quaternion : Quaternion
}.

(** [{ mesh, velocity, turnSpeed, thrustPower, drag, maxSpeed }] *)
Record Spacecraft : Type := mkSpacecraft {
  sc_mesh : ShipMesh;
  velocity : Vector3;
  turnSpeed : R;
  thrustPower : R;
  drag : R;
  maxSpeed : R
}.

(** [{ thrust, turnLeft, turnRight }] *)
Record InputState : Type := mkInputState {
  thrust : bool;
  turnLeft : bool;
  turnRight : bool
}.

Record Sphere : Type := mkSphere { center : Vector3; radius : R }.

Record BufferGeometry : Type := mkBufferGeometry {
  boundingSphere : option Sphere
}.

(** What the autopilot and the radius helper read of a target mesh:
    its geometry, its scale and the translation of its world matrix. *)
Record TargetMesh : Type := mkTargetMesh {
  geometry : option BufferGeometry;
  scale : option Vector3;
  matrixWorldPosition : Vector3
}.

(** The trajectory [THREE.Line]: the points its geometry was last built
    from by [setFromPoints]. *)
Record Line : Type := mkLine { geometryPoints : list Vector3 }.

(** ** three.js: world transforms of the orbital scene graph *)

(** [Matrix4.makeRotationFromEuler] for Euler angles [(0, theta, 0)]
    applied to a vector: the matrix rows are
    [(cos, 0, sin)], [(0, 1, 0)], [(-sin, 0, cos)]. *)
Definition applyEulerY (theta : R) (v : Vector3) : Vector3 :=
  mkVector3 (cos theta * vx v + sin theta * vz v)
            (vy v)
            (- sin theta * vx v + cos theta * vz v).

(** The local matrix of [o] (compose of position, rotation, unit scale)
    applied to a point given in the coordinates of [o]. *)
Definition localToParent (o : Object3D) (v : Vector3) : Vector3 :=
  V3.add (applyEulerY (rotation_y o) v) (position o).

(** [matrixWorld] of the innermost object of a parent chain, applied to a
    point; [ancestors] lists the chain from the object itself outwards,
    the scene being the identity. *)
Fixpoint localToWorld (ancestors : list Object3D) (v : Vector3) : Vector3 :=
  match ancestors with
  | [] => v
  | o :: up => localToWorld up (localToParent o v)
  end.

(** [o.getWorldPosition(target)] for an object [o] whose parents are
    [ancestors]: the translation of its world matrix. *)
Definition getWorldPosition (ancestors : list Object3D) (o : Object3D)
  : Vector3 :=
  localToWorld (o :: ancestors) V3.zero.

(** [Object3D.rotateY(angle)]:
    [_q1.setFromAxisAngle(_yAxis, angle); this.quaternion.multiply(_q1)]. *)
Definition rotateY (m : ShipMesh) (angle : R) : ShipMesh :=
  mkShipMesh (sm_position m)
    (Quat.multiply (sm_quaternion m)
       (Quat.setFromAxisAngle (mkVector3 0 1 0) angle)).

Local Open Scope scratch_scope.

(** ** updateCelestials *)

(** The two guarded [rotation.y += ...] statements, shared by the planet
    loop and the moon loop of the source. *)
Definition addRotationY (o : option Object3D) (rate : option R) (delta : R)
  : option Object3D :=
  match o, rate with
  | Some obj, Some w =>
      Some (mkObject3D (position obj) (rotation_y obj + w * delta))
  | _, _ => o
  end.

(** The body of [body.moons.forEach(moon => ...)]: the moon's own pivot
    and mesh are turned; [moon.moons] is not looked at. *)
Definition updateMoon (delta : R) (moon : Body) : Body :=
  mkBody (addRotationY (mesh moon) (axialSpeed moon) delta)
         (addRotationY (pivot moon) (speed moon) delta)
         (speed moon) (axialSpeed moon) (moons moon).

(** The body of [celestialBodies.forEach(body => ...)]. *)
Definition updateBody (delta : R) (body : Body) : Body :=
  mkBody (addRotationY (mesh body) (axialSpeed body) delta)
         (addRotationY (pivot body) (speed body) delta)
         (speed body) (axialSpeed body)
         (match moons body with
          | Some ms => Some (map (updateMoon delta) ms)
          | None => None
          end).

Definition updateCelestials (celestialBodies : list Body) (delta : R)
  (isPaused : bool) : list Body :=
  if isPaused then celestialBodies
  else map (updateBody delta) celestialBodies.

(** ** updateSpacecraft *)

Definition updateSpacecraft (spacecraft : option Spacecraft)
  (inputState : InputState) (delta : R) : M (option Spacecraft) :=
  match spacecraft with
  | None => ret None
  | Some sc =>
      (* Turning *)
      let turnAmount := 0 in
      let turnAmount :=
        if turnLeft inputState then turnAmount + turnSpeed sc * delta
        else turnAmount in
      let turnAmount :=
        if turnRight inputState then turnAmount - turnSpeed sc * delta
        else turnAmount in
      let mesh1 := rotateY (sc_mesh sc) turnAmount in
      (* Thrust *)
      velocity1 <-
        (if thrust inputState then
           fwd <- write ref_updateShipForward
                    (Quat.applyTo (V3.set 0 0 (-1)) (sm_quaternion mesh1)) ;;
           f <- read fwd ;;
           tmp <- write ref_updateTempVec3
                    (V3.multiplyScalar f (thrustPower sc * delta)) ;;
           t <- read tmp ;;
           ret (V3.add (velocity sc) t)
         else ret (velocity sc)) ;;
      (* Drag & Speed Limit *)
      let velocity2 := V3.multiplyScalar velocity1 (drag sc) in
      let velocity3 :=
        if Rgt_dec (V3.lengthSq velocity2) (maxSpeed sc * maxSpeed sc)
        then V3.multiplyScalar (V3.normalize velocity2) (maxSpeed sc)
        else velocity2 in
      (* Update Position *)
      tmp <- write ref_updateTempVec3 (V3.multiplyScalar velocity3 delta) ;;
      t <- read tmp ;;
      ret (Some (mkSpacecraft
                   (mkShipMesh (V3.add (sm_position mesh1) t)
                               (sm_quaternion mesh1))
                   velocity3
                   (turnSpeed sc) (thrustPower sc) (drag sc) (maxSpeed sc)))
  end.

(** ** updateTrajectoryLine *)

(** [while (trajectoryPoints.length > maxPoints) { trajectoryPoints.pop(); }]
    Each turn of the loop costs one unit of [fuel]; [None] is a loop that
    is still running when the fuel is spent ([pop] on an empty array leaves
    it empty, so the loop never ends when [maxPoints] is negative). *)
Fixpoint popWhileLonger (fuel : nat) (trajectoryPoints : list Vector3)
  (maxPoints : R) : option (list Vector3) :=
  if Rgt_dec (INR (List.length trajectoryPoints)) maxPoints then
    match fuel with
    | O => None
    | S fuel' => popWhileLonger fuel' (removelast trajectoryPoints) maxPoints
    end
  else Some trajectoryPoints.

(** The arguments after the call, [None] when the loop ran out of fuel.
    [trajectoryPoints] is mutated in place and the line's geometry is
    rebuilt from it. *)
Definition updateTrajectoryLine (fuel : nat) (spacecraft : option Spacecraft)
  (trajectoryLine : option Line) (trajectoryPoints : option (list Vector3))
  (maxPoints : R) : option (option Line * option (list Vector3)) :=
  match spacecraft, trajectoryLine, trajectoryPoints with
  | Some sc, Some line, Some points =>
      let currentPosition := sm_position (sc_mesh sc) in
      if match points with
         | [] => true
         | newest :: _ => negb (V3.equals newest currentPosition)
         end
      then
        match popWhileLonger fuel (currentPosition :: points) maxPoints with
        | Some points' => Some (Some (mkLine points'), Some points')
        | None => None
        end
      else Some (Some line, Some points)
  | _, _, _ => Some (trajectoryLine, trajectoryPoints)
  end.

(** ** objectRadius *)

(** [obj?.geometry?.boundingSphere?.radius] *)
Definition boundingRadius (obj : option TargetMesh) : jsval :=
  match obj with
  | Some o =>
      match geometry o with
      | Some g =>
          match boundingSphere g with
          | Some sph => Number (Num (radius sph))
          | None => Undefined
          end
      | None => Undefined
      end
  | None => Undefined
  end.

(** [obj?.scale?.x] *)
Definition scaleX (obj : option TargetMesh) : jsval :=
  match obj with
  | Some o =>
      match scale o with
      | Some sc => Number (Num (vx sc))
      | None => Undefined
      end
  | None => Undefined
  end.

(** [obj?.geometry?.boundingSphere?.radius
       ?? (obj?.scale?.x * BASE_PLANET_RADIUS) ?? 1];
    [BASE_PLANET_RADIUS] comes from constants.js and is a parameter. *)
Definition objectRadius (BASE_PLANET_RADIUS : R) (obj : option TargetMesh)
  : jsval :=
  nullish
    (nullish (boundingRadius obj)
             (jsMul (scaleX obj) (Number (Num BASE_PLANET_RADIUS))))
    (Number (Num 1)).

(** ** updateAiPilot *)

(** [targetObject.getWorldPosition(target)]: fills [target] with the
    translation of the world matrix and returns [target] itself. *)
Definition getWorldPositionInto (targetObject : TargetMesh) (target : vref)
  : M vref :=
  write target (matrixWorldPosition targetObject).

(** The new contents of the shared [inputState] record.  [targetPos] and
    [cross] are references: both are bound to what a method called on (or
    given) [_updateTempVec3] returned. *)
Definition updateAiPilot (BASE_PLANET_RADIUS : R)
  (spacecraft : option Spacecraft) (targetObject : option TargetMesh)
  (inputState : InputState) (delta : R) (isAiActive : bool) : M InputState :=
  match isAiActive, spacecraft, targetObject with
  | true, Some sc, Some target =>
      let shipPos := sm_position (sc_mesh sc) in
      targetPos <- getWorldPositionInto target ref_updateTempVec3 ;;
      tp <- read targetPos ;;
      write ref_updateTargetDirection
        (V3.normalize (V3.subVectors tp shipPos)) ;;
      write ref_updateShipForward
        (Quat.applyTo (V3.set 0 0 (-1)) (sm_quaternion (sc_mesh sc))) ;;
      fwd <- read ref_updateShipForward ;;
      dir <- read ref_updateTargetDirection ;;
      let angle := V3.angleTo fwd dir in
      let shipUp :=
        Quat.applyTo (mkVector3 0 1 0) (sm_quaternion (sc_mesh sc)) in
      cross <- write ref_updateTempVec3 (V3.crossVectors fwd dir) ;;
      c <- read cross ;;
      let turnDirectionSign := Math_sign (V3.dot c shipUp) in
      let angleThreshold := degToRad 5 in
      tp' <- read targetPos ;;
      let distanceToTarget := V3.distanceTo shipPos tp' in
      (* Reset inputs before AI sets them *)
      let inputState := mkInputState false false false in
      if Rgt_dec angle angleThreshold then
        if Rgt_dec turnDirectionSign 0
        then ret (mkInputState (thrust inputState) true (turnRight inputState))
        else ret (mkInputState (thrust inputState) (turnLeft inputState) true)
      else
        if jsGt (Number (Num distanceToTarget))
                (jsMul (objectRadius BASE_PLANET_RADIUS (Some target))
                       (Number (Num 2)))
        then ret (mkInputState true (turnLeft inputState)
                               (turnRight inputState))
        else ret inputState
  | _, _, _ => ret (mkInputState false false false)
  end.

(** ** calculateFuturePosition *)

(** [ancestors] are the parents of [body.pivot] in the scene graph
    (none for a planet, whose pivot is added to the scene itself). *)
Definition calculateFuturePosition (ancestors : list Object3D)
  (body : option Body) (timeAhead : R) : Vector3 :=
  match body with
  | Some b =>
      match pivot b, speed b, mesh b with
      | Some p, Some w, Some m =>
          let currentAngle := rotation_y p in
          let futureAngle := currentAngle + w * timeAhead in
          let distance := vx (position m) in
          let futureX := cos futureAngle * distance in
          let futureZ := sin futureAngle * distance in
          let pivotPosition := getWorldPosition ancestors p in
          mkVector3 (vx pivotPosition + futureX)
                    (vy pivotPosition)
                    (vz pivotPosition + futureZ)
      | _, _, _ => V3.zero
      end
  | None => V3.zero
  end.

(** The world position of [body.mesh], a child of [body.pivot]:
    [body.mesh.getWorldPosition(...)]. *)
Definition meshWorldPosition (ancestors : list Object3D) (b : Body)
  : option Vector3 :=
  match pivot b, mesh b with
  | Some p, Some m => Some (getWorldPosition (p :: ancestors) m)
  | _, _ => None
  end.

(** ** Runs and observations used by the properties below *)

(** Consecutive frames of [updateSpacecraft], each with its own input
    record and time step, on the shared scratch vectors. *)
Fixpoint updateSpacecraftSeq (steps : list (InputState * R))
  (spacecraft : option Spacecraft) : M (option Spacecraft) :=
  match steps with
  | [] => ret spacecraft
  | (inputState, delta) :: rest =>
      sc' <- updateSpacecraft spacecraft inputState delta ;;
      updateSpacecraftSeq rest sc'
  end.

(** Consecutive calls of [updateTrajectoryLine] on the same line and
    points array, one per spacecraft state, with one [maxPoints]. *)
Fixpoint recordAll (fuel : nat) (crafts : list Spacecraft) (line : Line)
  (points : list Vector3) (maxPoints : R) : option (Line * list Vector3) :=
  match crafts with
  | [] => Some (line, points)
  | sc :: rest =>
      match updateTrajectoryLine fuel (Some sc) (Some line) (Some points)
              maxPoints with
      | Some (Some line', Some points') =>
          recordAll fuel rest line' points' maxPoints
      | _ => None
      end
  end.

(** The rotation [updateSpacecraft] hands to [rotateY]. *)
Definition turnAmountOf (sc : Spacecraft) (inputState : InputState)
  (delta : R) : R :=
  let turnAmount := 0 in
  let turnAmount :=
    if turnLeft inputState then turnAmount + turnSpeed sc * delta
    else turnAmount in
  if turnRight inputState then turnAmount - turnSpeed sc * delta
  else turnAmount.

(** The velocity [updateSpacecraft] holds right after drag, before the
    speed limit. *)
Definition draggedVelocity (sc : Spacecraft) (inputState : InputState)
  (delta : R) : Vector3 :=
  V3.multiplyScalar
    (if thrust inputState
     then V3.add (velocity sc)
            (V3.multiplyScalar
               (Quat.applyTo (V3.set 0 0 (-1))
                  (sm_quaternion
                     (rotateY (sc_mesh sc) (turnAmountOf sc inputState delta))))
               (thrustPower sc * delta))
     else velocity sc)
    (drag sc).

(** The speed limit of the source:
    [if (lengthSq() > maxSpeed * maxSpeed) normalize().multiplyScalar(maxSpeed)]. *)
Definition limited (v : Vector3) (m : R) : Vector3 :=
  if Rgt_dec (V3.lengthSq v) (m * m)
  then V3.multiplyScalar (V3.normalize v) m
  else v.

(** The body found by following [path] through the collection and then
    through successive [moons] arrays: [[i]] is [celestialBodies[i]],
    [[i; j]] is [celestialBodies[i].moons[j]], and so on. *)
Fixpoint descendantAt (path : list nat) (bodies : list Body) : option Body :=
  match path with
  | [] => None
  | i :: rest =>
      match nth_error bodies i with
      | Some b =>
          match rest with
          | [] => Some b
          | _ :: _ =>
              match moons b with
              | Some ms => descendantAt rest ms
              | None => None
              end
          end
      | None => None
      end
  end.

(** [b'] is [b] with both angles advanced by [delta]: each rotation that
    has an object and a numeric rate gains [rate * delta]. *)
Definition advancedBy (delta : R) (b b' : Body) : Prop :=
  (forall p w, pivot b = Some p -> speed b = Some w ->
     pivot b' = Some (mkObject3D (position p) (rotation_y p + w * delta)))
  /\
  (forall m w, mesh b = Some m -> axialSpeed b = Some w ->
     mesh b' = Some (mkObject3D (position m) (rotation_y m + w * delta))).

(** Advancing reaches every nesting depth: whatever body a path leads
    to, the same path leads to an advanced copy after an unpaused
    [updateCelestials]. *)
Definition advancesAtEveryDepth : Prop :=
  forall (celestialBodies : list Body) (delta : R) (path : list nat) (b : Body),
    descendantAt path celestialBodies = Some b ->
    exists b',
      descendantAt path (updateCelestials celestialBodies delta false)
        = Some b' /\
      advancedBy delta b b'.

(** A planet whose moon has a moon of its own. *)
Definition subMoon : Body :=
  mkBody (Some (mkObject3D (mkVector3 1 0 0) 0))
         (Some (mkObject3D V3.zero 0))
         (Some 1) (Some 1) None.

Definition moonWithMoon : Body :=
  mkBody (Some (mkObject3D (mkVector3 5 0 0) 0))
         (Some (mkObject3D V3.zero 0))
         (Some 1.5) (Some 0.05) (Some [subMoon]).

Definition planetWithNestedMoons : Body :=
  mkBody (Some (mkObject3D (mkVector3 38 0 0) 0))
         (Some (mkObject3D V3.zero 0))
         (Some 0.3) (Some 0.2) (Some [moonWithMoon]).

(** Earth a quarter turn into its orbit: the pivot sits at the origin of
    the scene, the mesh at distance 38 along the pivot's X axis. *)
Definition earthAtQuarterTurn : Body :=
  mkBody (Some (mkObject3D (mkVector3 38 0 0) 0))
         (Some (mkObject3D V3.zero (PI / 2)))
         (Some 0.3) (Some 0.2) (Some []).

(** A craft at the origin with the identity orientation (it faces -Z),
    and a target of bounding radius 1 straight ahead at distance 100. *)
Definition craftAtOrigin : Spacecraft :=
  mkSpacecraft (mkShipMesh V3.zero Quat.identity) V3.zero 2.5 7.0 0.98 30.0.

Definition targetAhead : TargetMesh :=
  mkTargetMesh (Some (mkBufferGeometry (Some (mkSphere V3.zero 1))))
               (Some (mkVector3 1 1 1))
               (mkVector3 0 0 (-100)).

(** The sub-steps of the spacecraft update as the specification names
    them; [updateSpacecraft] is compared with their composition. *)
Module StepSpec.

Definition turn (input : InputState) (dt : R) (sc : Spacecraft) : Spacecraft :=
  mkSpacecraft
    (rotateY (sc_mesh sc)
       ((if turnLeft input then turnSpeed sc else 0) * dt
        + (if turnRight input then - turnSpeed sc else 0) * dt))
    (velocity sc) (turnSpeed sc) (thrustPower sc) (drag sc) (maxSpeed sc).

Definition forward (sc : Spacecraft) : Vector3 :=
  Quat.applyTo (mkVector3 0 0 (-1)) (sm_quaternion (sc_mesh sc)).

Definition applyThrust (input : InputState) (dt : R) (sc : Spacecraft)
  : Spacecraft :=
  mkSpacecraft (sc_mesh sc)
    (if thrust input
     then V3.add (velocity sc)
            (V3.multiplyScalar (forward sc) (thrustPower sc * dt))
     else velocity sc)
    (turnSpeed sc) (thrustPower sc) (drag sc) (maxSpeed sc).

Definition applyDrag (sc : Spacecraft) : Spacecraft :=
  mkSpacecraft (sc_mesh sc)
    (V3.multiplyScalar (velocity sc) (drag sc))
    (turnSpeed sc) (thrustPower sc) (drag sc) (maxSpeed sc).

Definition clampSpeed (sc : Spacecraft) : Spacecraft :=
  mkSpacecraft (sc_mesh sc)
    (if Rgt_dec (V3.length (velocity sc)) (maxSpeed sc)
     then V3.multiplyScalar (velocity sc)
            (maxSpeed sc / V3.length (velocity sc))
     else velocity sc)
    (turnSpeed sc) (thrustPower sc) (drag sc) (maxSpeed sc).

Definition integrate (dt : R) (sc : Spacecraft) : Spacecraft :=
  mkSpacecraft
    (mkShipMesh
       (V3.add (sm_position (sc_mesh sc))
               (V3.multiplyScalar (velocity sc) dt))
       (sm_quaternion (sc_mesh sc)))
    (velocity sc) (turnSpeed sc) (thrustPower sc) (drag sc) (maxSpeed sc).

Definition step (sc : Spacecraft) (input : InputState) (dt : R) : Spacecraft :=
  integrate dt (clampSpeed (applyDrag (applyThrust input dt (turn input dt sc)))).

(** The other order the specification warns against: clamp before drag. *)
Definition stepClampFirst (sc : Spacecraft) (input : InputState) (dt : R)
  : Spacecraft :=
  integrate dt (applyDrag (clampSpeed (applyThrust input dt (turn input dt sc)))).

End StepSpec.

(** ** simulationObjects.js: the world that is simulated *)

(** One row of [planetData], with the fields the simulation objects are
    built from ([hasMoon] and [hasRing] are false where the row omits
    them); the colour and the texts shown in the info panel are left out. *)
Module Data.

Record t : Type := mk {
  name : string;
  radius : R;
  distance : R;
  speed : R;
  axialSpeed : R;
  hasMoon : bool;
  hasRing : bool
}.

End Data.

Definition planetData : list Data.t :=
  [ Data.mk "Mercury" 0.38 15 0.8 0.1 false false;
    Data.mk "Venus" 0.95 25 0.5 0.005 false false;
    Data.mk "Earth" 1.0 38 0.3 0.2 true false;
    Data.mk "Mars" 0.53 55 0.2 0.18 false false;
    Data.mk "Jupiter" 4.0 100 0.1 0.45 false false;
    Data.mk "Saturn" 3.5 150 0.06 0.38 false true;
    Data.mk "Uranus" 2.0 200 0.04 0.25 false false;
    Data.mk "Neptune" 1.9 250 0.03 0.26 false false ].

(** [createSun]: [{ mesh: sunMesh, pivot: null, speed: 0, axialSpeed: 0.02 }],
    the mesh at the origin of the scene. *)
Definition createSun : Body :=
  mkBody (Some (mkObject3D V3.zero 0)) None (Some 0) (Some 0.02) None.

(** The object [createEarthMoon] pushes onto [earthObject.moons]:
    the moon mesh at [x = moonDistance] under a fresh pivot, which is a
    child of the Earth mesh; the object has no [moons] field. *)
Definition earthMoon : Body :=
  mkBody (Some (mkObject3D (mkVector3 5 0 0) 0))
         (Some (mkObject3D V3.zero 0))
         (Some 1.5) (Some 0.05) None.

(** One turn of the loop of [createPlanets]: a fresh pivot at the origin
    of the scene, the mesh at [x = data.distance] under it, and
    [moons: []], onto which [createEarthMoon] pushes when [data.hasMoon]. *)
Definition createPlanet (data : Data.t) : Body :=
  mkBody (Some (mkObject3D (mkVector3 (Data.distance data) 0 0) 0))
         (Some (mkObject3D V3.zero 0))
         (Some (Data.speed data)) (Some (Data.axialSpeed data))
         (Some (if Data.hasMoon data then [earthMoon] else [])).

Definition createPlanets (data : list Data.t) : list Body :=
  map createPlanet data.

(** [Quaternion.setFromEuler] for the default order ['XYZ']; three.js
    runs it whenever a component of [rotation] is assigned. *)
Definition setFromEulerXYZ (x y z : R) : Quaternion :=
  let c1 := cos (x / 2) in
  let c2 := cos (y / 2) in
  let c3 := cos (z / 2) in
  let s1 := sin (x / 2) in
  let s2 := sin (y / 2) in
  let s3 := sin (z / 2) in
  mkQuaternion (s1 * c2 * c3 + c1 * s2 * s3)
               (c1 * s2 * c3 - s1 * c2 * s3)
               (c1 * c2 * s3 + s1 * s2 * c3)
               (c1 * c2 * c3 - s1 * s2 * s3).

(** [createSpacecraft]: the mesh is put at [initialPosition] and
    [shipMesh.rotation.x = Math.PI / 2] orients the cone.  Over the reals
    the quaternion is [(sin (PI / 4), 0, 0, cos (PI / 4))] with equal
    first and last components; the doubles three.js stores differ in
    the last place, so nothing below rests on that equality. *)
Definition createSpacecraft (initialPosition : Vector3) : Spacecraft :=
  mkSpacecraft
    (mkShipMesh initialPosition (setFromEulerXYZ (PI / 2) 0 0))
    (mkVector3 0 0 0) 2.5 7.0 0.98 30.0.

(** [initTrajectoryLine]: the geometry starts from the craft's position,
    or from no point when there is no craft. *)
Definition initTrajectoryLine (spacecraft : option Spacecraft) : Line :=
  mkLine (match spacecraft with
          | Some sc => [sm_position (sc_mesh sc)]
          | None => []
          end).

(** ** uiController.js: the control state and its event listeners *)

(** [inputState] and [isAiPilotActive], the two module variables the
    frame loop reads through [getInputState] and [getIsAiPilotActive]. *)
Record UiState : Type := mkUiState {
  ui_inputState : InputState;
  isAiPilotActive : bool
}.

Inductive ControlButton : Type := thrustBtn | turnLeftBtn | turnRightBtn.

(** [event.key.toLowerCase()], as far as the listeners tell keys apart. *)
Inductive Key : Type := key_w | key_a | key_d | key_p | key_other.

Inductive UiEvent : Type :=
| mousedown (b : ControlButton)
| mouseup (b : ControlButton)
| mouseleave (b : ControlButton)
| keydown (k : Key)
| keyup (k : Key)
| click_aiPilotBtn.

(** [toggleAiPilot]: either way the input record is replaced by a
    cleared one. *)
Definition toggleAiPilot (ui : UiState) : UiState :=
  mkUiState (mkInputState false false false) (negb (isAiPilotActive ui)).

Definition setThrust (v : bool) (i : InputState) : InputState :=
  mkInputState v (turnLeft i) (turnRight i).

Definition setTurnLeft (v : bool) (i : InputState) : InputState :=
  mkInputState (thrust i) v (turnRight i).

Definition setTurnRight (v : bool) (i : InputState) : InputState :=
  mkInputState (thrust i) (turnLeft i) v.

Definition setButton (b : ControlButton) (v : bool) (i : InputState)
  : InputState :=
  match b with
  | thrustBtn => setThrust v i
  | turnLeftBtn => setTurnLeft v i
  | turnRightBtn => setTurnRight v i
  end.

(** The [switch] of the keyboard listeners. *)
Definition setKey (k : Key) (v : bool) (i : InputState) : InputState :=
  match k with
  | key_w => setThrust v i
  | key_a => setTurnLeft v i
  | key_d => setTurnRight v i
  | key_p | key_other => i
  end.

(** The listeners installed by [setupEventListeners] that write the
    control state. *)
Definition handleEvent (e : UiEvent) (ui : UiState) : UiState :=
  match e with
  | mousedown b =>
      if isAiPilotActive ui then ui
      else mkUiState (setButton b true (ui_inputState ui)) (isAiPilotActive ui)
  | mouseup b | mouseleave b =>
      if isAiPilotActive ui then ui
      else mkUiState (setButton b false (ui_inputState ui)) (isAiPilotActive ui)
  | keydown k =>
      if isAiPilotActive ui then ui
      else mkUiState (setKey k true (ui_inputState ui)) (isAiPilotActive ui)
  | keyup k =>
      match k with
      | key_p => toggleAiPilot ui
      | _ =>
          if isAiPilotActive ui then ui
          else mkUiState (setKey k false (ui_inputState ui))
                         (isAiPilotActive ui)
      end
  | click_aiPilotBtn => toggleAiPilot ui
  end.

Definition handleEvents (events : list UiEvent) (ui : UiState) : UiState :=
  fold_left (fun u e => handleEvent e u) events ui.

(** [easeInOutCubic] *)
Definition easeInOutCubic (t : R) : R :=
  if Rlt_dec t 0.5 then 4 * t * t * t
  else 1 - (-2 * t + 2) ^ 3 / 2.

(** What [updatePredictionPanelDOM] keeps between calls: the module
    variable [anomalyCooldown], the text and class of the status element,
    and whether the panel's [style.display] is other than ['none']. *)
Record PredictionPanel : Type := mkPredictionPanel {
  anomalyCooldown : R;
  statusText : string;
  statusClass : string;
  displayed : bool
}.

(** The four positions the panel formats: simulated and perturbed, at
    the horizons 10 and 30. *)
Record Prediction : Type := mkPrediction {
  simPos10 : Vector3;
  aiPos10 : Vector3;
  simPos30 : Vector3;
  aiPos30 : Vector3
}.

(** [a.clone().add(new THREE.Vector3((r1 - 0.5) * k, 0, (r2 - 0.5) * k))] *)
Definition perturbed (a : Vector3) (r1 r2 k : R) : Vector3 :=
  V3.add a (mkVector3 ((r1 - 0.5) * k) 0 ((r2 - 0.5) * k)).

(** [updatePredictionPanelDOM(body, delta)].  [rAnomaly] and [r1] to [r4]
    are the values [Math.random()] returns, in call order ([rAnomaly] is
    drawn only when the cooldown has run out).  The selected body is a
    top-level body of [celestialBodies], whose pivot has no parent but the
    scene.  [None] for the positions is the early return. *)
Definition updatePredictionPanelDOM (body : option Body) (delta : R)
  (rAnomaly r1 r2 r3 r4 : R) (panel : PredictionPanel)
  : PredictionPanel * option Prediction :=
  match body, displayed panel with
  | Some b, true =>
      let cooldown := anomalyCooldown panel - delta in
      let currentStatus := statusText panel in
      let '(cooldown, currentStatus, cls) :=
        if Rle_dec cooldown 0 then
          if Rlt_dec rAnomaly 0.005
          then (5.0, "Anomaly Detected!"%string, "anomaly"%string)
          else
            if String.eqb currentStatus "Anomaly Detected!"
            then (cooldown, "Nominal"%string, "nominal"%string)
            else (cooldown, currentStatus, statusClass panel)
        else (cooldown, currentStatus, statusClass panel) in
      let timeStep1 := 10 in
      let timeStep2 := 30 in
      let sim10 := calculateFuturePosition [] (Some b) timeStep1 in
      let sim30 := calculateFuturePosition [] (Some b) timeStep2 in
      (mkPredictionPanel cooldown currentStatus cls true,
       Some (mkPrediction sim10 (perturbed sim10 r1 r2 0.5)
                          sim30 (perturbed sim30 r3 r4 1.0)))
  | _, _ => (panel, None)
  end.

(** ** app.js: one frame of [animate] *)

(** The simulation state [animate] works on: [spacecraft],
    [shipTrajectoryLine], [shipTrajectoryPoints], [celestialBodies]. *)
Record World : Type := mkWorld {
  w_spacecraft : option Spacecraft;
  shipTrajectoryLine : option Line;
  shipTrajectoryPoints : list Vector3;
  celestialBodies_ : list Body
}.

(** The simulation calls of [animate], in the order of the source:
    [updateAiPilot] writes the shared input record, [updateSpacecraft]
    reads it, then [updateTrajectoryLine], then [updateCelestials].
    [aiTargetObject] is the target mesh as the scene graph presents it in
    this frame; [MAX_TRAJECTORY_POINTS] and [BASE_PLANET_RADIUS] come from
    constants.js; [isPaused] is the module variable of app.js.  Camera
    controls, the prediction panel and rendering do not touch this
    state.  [None] is a frame whose trajectory loop does not end. *)
Definition animate (BASE_PLANET_RADIUS MAX_TRAJECTORY_POINTS : R)
  (fuel : nat) (isPaused : bool) (aiTargetObject : option TargetMesh)
  (delta : R) (ui : UiState) (w : World) : M (option (UiState * World)) :=
  let inputState := ui_inputState ui in
  inputState' <- updateAiPilot BASE_PLANET_RADIUS (w_spacecraft w)
                   aiTargetObject inputState delta (isAiPilotActive ui) ;;
  spacecraft' <- updateSpacecraft (w_spacecraft w) inputState' delta ;;
  match updateTrajectoryLine fuel spacecraft' (shipTrajectoryLine w)
          (Some (shipTrajectoryPoints w)) MAX_TRAJECTORY_POINTS with
  | Some (line', Some points') =>
      ret (Some (mkUiState inputState' (isAiPilotActive ui),
                 mkWorld spacecraft' line' points'
                   (updateCelestials (celestialBodies_ w) delta isPaused)))
  | _ => ret None
  end.

(** What happens between two frames and in the next one: the events the
    listeners receive, then the target as seen by the frame and its
    time step. *)
Record Frame : Type := mkFrame {
  f_events : list UiEvent;
  f_aiTargetObject : option TargetMesh;
  f_delta : R
}.

(** The application running: listeners, then a frame, repeatedly. *)
Fixpoint runApp (BASE_PLANET_RADIUS MAX_TRAJECTORY_POINTS : R) (fuel : nat)
  (isPaused : bool) (frames : list Frame) (ui : UiState) (w : World)
  : M (option (UiState * World)) :=
  match frames with
  | [] => ret (Some (ui, w))
  | f :: rest =>
      r <- animate BASE_PLANET_RADIUS MAX_TRAJECTORY_POINTS fuel isPaused
             (f_aiTargetObject f) (f_delta f)
             (handleEvents (f_events f) ui) w ;;
      match r with
      | Some (ui', w') =>
          runApp BASE_PLANET_RADIUS MAX_TRAJECTORY_POINTS fuel isPaused
            rest ui' w'
      | None => ret None
      end
  end.

(** ** Observations used by the further properties *)

Definition normSq (q : Quaternion) : R :=
  qx q * qx q + qy q * qy q + qz q * qz q + qw q * qw q.

(** No two neighbouring entries of the history are equal. *)
Fixpoint noRepeat (points : list Vector3) : Prop :=
  match points with
  | a :: ((b :: _) as rest) => a <> b /\ noRepeat rest
  | _ => True
  end.

(** Mirror image of [v] in the plane [z = vz c]. *)
Definition mirrorZ (c v : Vector3) : Vector3 :=
  mkVector3 (vx v) (vy v) (2 * vz c - vz v).

(** The listener calls that end in [toggleAiPilot]. *)
Definition isToggle (e : UiEvent) : bool :=
  match e with
  | keyup key_p | click_aiPilotBtn => true
  | _ => false
  end.

(** What an update leaves alone in a body. *)
Definition sameShape (b b' : Body) : Prop :=
  option_map position (pivot b') = option_map position (pivot b) /\
  option_map position (mesh b') = option_map position (mesh b) /\
  speed b' = speed b /\ axialSpeed b' = axialSpeed b /\
  option_map (@List.length Body) (moons b')
  = option_map (@List.length Body) (moons b).

(** Unpaused updates, one per time step. *)
Fixpoint updateCelestialsSeq (deltas : list R) (bodies : list Body)
  : list Body :=
  match deltas with
  | [] => bodies
  | delta :: rest => updateCelestialsSeq rest (updateCelestials bodies delta false)
  end.

(** The time elapsed over a list of time steps. *)
Definition elapsed (deltas : list R) : R := fold_right Rplus 0 deltas.

(** The craft has moved since the newest entry, or there is no entry. *)
Definition moved (sc : Spacecraft) (points : list Vector3) : Prop :=
  match points with
  | [] => True
  | newest :: _ => newest <> sm_position (sc_mesh sc)
  end.

(** The cleared input record. *)
Definition cleared : InputState := mkInputState false false false.

(** No listener call in [events] toggles the autopilot. *)
Definition noToggle (events : list UiEvent) : Prop :=
  forallb (fun e => negb (isToggle e)) events = true.


(** The values [Math.random()] returns during one call of
    [updatePredictionPanelDOM], in call order. *)
Record Draws : Type := mkDraws {
  d_anomaly : R;
  d_x10 : R;
  d_z10 : R;
  d_x30 : R;
  d_z30 : R
}.

(** One call of [updatePredictionPanelDOM]: the selected body, the time
    step and the random draws. *)
Record PanelCall : Type := mkPanelCall {
  c_body : option Body;
  c_delta : R;
  c_draws : Draws
}.

Definition panelStep (c : PanelCall) (panel : PredictionPanel)
  : PredictionPanel * option Prediction :=
  updatePredictionPanelDOM (c_body c) (c_delta c)
    (d_anomaly (c_draws c)) (d_x10 (c_draws c)) (d_z10 (c_draws c))
    (d_x30 (c_draws c)) (d_z30 (c_draws c)) panel.

(** The panel after consecutive calls. *)
Fixpoint updatePanelSeq (calls : list PanelCall) (panel : PredictionPanel)
  : PredictionPanel :=
  match calls with
  | [] => panel
  | c :: rest => updatePanelSeq rest (fst (panelStep c panel))
  end.

(** A draw of [Math.random()]: in [[0, 1)]. *)
Definition isDraw (r : R) : Prop := 0 <= r < 1.

(** ** updateSpacecraft in binary64

    The same function over IEEE 754 double-precision numbers, the
    numbers JavaScript computes with: every operation rounds to nearest
    even and can overflow to infinity.  Expressions are associated as the
    source and three.js write them.  [Math.sin] and [Math.cos], which the
    language leaves to the implementation, are parameters.  The scratch
    vectors are left implicit: no result of this function depends on
    what they held before the call. *)
Module B64.

Import PrimFloat.
Local Open Scope float_scope.

Record Vector3 : Type := mkVector3 { vx : float; vy : float; vz : float }.

Record Quaternion : Type :=
  mkQuaternion { qx : float; qy : float; qz : float; qw : float }.

Definition add (a v : Vector3) : Vector3 :=
  mkVector3 (vx a + vx v) (vy a + vy v) (vz a + vz v).

Definition multiplyScalar (a : Vector3) (s : float) : Vector3 :=
  mkVector3 (vx a * s) (vy a * s) (vz a * s).

Definition divideScalar (a : Vector3) (s : float) : Vector3 :=
  multiplyScalar a (1 / s).

Definition lengthSq (a : Vector3) : float :=
  vx a * vx a + vy a * vy a + vz a * vz a.

Definition length (a : Vector3) : float := sqrt (lengthSq a).

(** [this.length() || 1]: zero of either sign and [NaN] are falsy. *)
Definition normalize (a : Vector3) : Vector3 :=
  let l := length a in
  divideScalar a (if is_zero l || is_nan l then 1 else l).

Definition setFromAxisAngle (Math_sin Math_cos : float -> float)
  (axis : Vector3) (angle : float) : Quaternion :=
  let halfAngle := angle / 2 in
  let s := Math_sin halfAngle in
  mkQuaternion (vx axis * s) (vy axis * s) (vz axis * s) (Math_cos halfAngle).

Definition multiply (a b : Quaternion) : Quaternion :=
  mkQuaternion
    (qx a * qw b + qw a * qx b + qy a * qz b - qz a * qy b)
    (qy a * qw b + qw a * qy b + qz a * qx b - qx a * qz b)
    (qz a * qw b + qw a * qz b + qx a * qy b - qy a * qx b)
    (qw a * qw b - qx a * qx b - qy a * qy b - qz a * qz b).

Definition applyQuaternion (v : Vector3) (q : Quaternion) : Vector3 :=
  let tx := 2 * (qy q * vz v - qz q * vy v) in
  let ty := 2 * (qz q * vx v - qx q * vz v) in
  let tz := 2 * (qx q * vy v - qy q * vx v) in
  mkVector3 (vx v + qw q * tx + qy q * tz - qz q * ty)
            (vy v + qw q * ty + qz q * tx - qx q * tz)
            (vz v + qw q * tz + qx q * ty - qy q * tx).

Record ShipMesh : Type := mkShipMesh {
  sm_position : Vector3;
  sm_quaternion : Quaternion
}.

Record Spacecraft : Type := mkSpacecraft {
  sc_mesh : ShipMesh;
  velocity : Vector3;
  turnSpeed : float;
  thrustPower : float;
  drag : float;
  maxSpeed : float
}.

Definition rotateY (Math_sin Math_cos : float -> float) (m : ShipMesh)
  (angle : float) : ShipMesh :=
  mkShipMesh (sm_position m)
    (multiply (sm_quaternion m)
       (setFromAxisAngle Math_sin Math_cos (mkVector3 0 1 0) angle)).

Definition updateSpacecraft (Math_sin Math_cos : float -> float)
  (sc : Spacecraft) (inputState : InputState) (delta : float) : Spacecraft :=
  (* Turning *)
  let turnAmount := 0 in
  let turnAmount :=
    if turnLeft inputState then turnAmount + turnSpeed sc * delta
    else turnAmount in
  let turnAmount :=
    if turnRight inputState then turnAmount - turnSpeed sc * delta
    else turnAmount in
  let mesh1 := rotateY Math_sin Math_cos (sc_mesh sc) turnAmount in
  (* Thrust *)
  let velocity1 :=
    if thrust inputState then
      let forward :=
        applyQuaternion (mkVector3 0 0 (-1)) (sm_quaternion mesh1) in
      add (velocity sc) (multiplyScalar forward (thrustPower sc * delta))
    else velocity sc in
  (* Drag & Speed Limit *)
  let velocity2 := multiplyScalar velocity1 (drag sc) in
  let velocity3 :=
    if ltb (maxSpeed sc * maxSpeed sc) (lengthSq velocity2)
    then multiplyScalar (normalize velocity2) (maxSpeed sc)
    else velocity2 in
  (* Update Position *)
  mkSpacecraft
    (mkShipMesh (add (sm_position mesh1) (multiplyScalar velocity3 delta))
                (sm_quaternion mesh1))
    velocity3 (turnSpeed sc) (thrustPower sc) (drag sc) (maxSpeed sc).

(** The square of a finite double as an exact number [n * 2 ^ e],
    given as the pair [(n, e)]. *)
Definition exactSquare (f : float) : option (Z * Z) :=
  match FloatOps.Prim2SF f with
  | SpecFloat.S754_zero _ => Some (0, 0)%Z
  | SpecFloat.S754_finite _ m e => Some (Z.pos m * Z.pos m, 2 * e)%Z
  | _ => None
  end.

(** [n * 2 ^ e] in units of [2 ^ E], for [E] at most [e]. *)
Definition inUnits (E : Z) (p : Z * Z) : Z := (fst p * 2 ^ (snd p - E))%Z.

(** The magnitude of [v], taken exactly (no rounding), is at most [m]:
    all four numbers are finite, [m] is not negative, and the exact sum
    of the squares of the components is at most the exact square of [m]. *)
Definition withinMaxSpeed (v : Vector3) (m : float) : Prop :=
  match exactSquare (vx v), exactSquare (vy v), exactSquare (vz v),
        exactSquare m with
  | Some a, Some b, Some c, Some d =>
      let E := Z.min (Z.min (snd a) (snd b)) (Z.min (snd c) (snd d)) in
      (inUnits E a + inUnits E b + inUnits E c <= inUnits E d)%Z
  | _, _, _, _ => False
  end.


Definition identity : Quaternion := mkQuaternion 0 0 0 1.


(** A craft whose speed [2 ^ 900] and [maxSpeed] [2 ^ 600] both have
    squares beyond the range of binary64. *)
Definition craftHuge : Spacecraft :=
  mkSpacecraft (mkShipMesh (mkVector3 0 0 0) identity)
    (mkVector3 (FloatOps.Z.ldexp 1 900) 0 0) 2.5 7 1
    (FloatOps.Z.ldexp 1 600).

(** [Math.sin] and [Math.cos] as far as an idle step consults them:
    [Math.sin(0)] is 0 and [Math.cos(0)] is 1. *)
Definition sinAtZero (a : float) : float := a.
Definition cosAtZero (a : float) : float := 1.


Definition stepHuge : Spacecraft :=
  updateSpacecraft sinAtZero cosAtZero craftHuge
    (mkInputState false false false) 1.

End B64.

(** * Properties *)

(** ** Basic facts on vectors and exact comparison *)

Lemma Reqb_refl (a : R) : Reqb a a = true.
Proof. unfold Reqb. destruct (Req_dec_T a a); congruence. Qed.

Lemma Reqb_true_iff (a b : R) : Reqb a b = true <-> a = b.
Proof.
  unfold Reqb. destruct (Req_dec_T a b); split; intros; congruence.
Qed.

Lemma equals_refl (v : Vector3) : V3.equals v v = true.
Proof. unfold V3.equals. now rewrite !Reqb_refl. Qed.

Lemma equals_true_iff (a v : Vector3) : V3.equals a v = true <-> a = v.
Proof.
  unfold V3.equals. rewrite !andb_true_iff, !Reqb_true_iff.
  destruct a, v; simpl. split.
  - intros [[-> ->] ->]. reflexivity.
  - intros [= -> -> ->]. auto.
Qed.

Lemma Vector3_eq (a b c a' b' c' : R) :
  a = a' -> b = b' -> c = c' -> mkVector3 a b c = mkVector3 a' b' c'.
Proof. congruence. Qed.

Lemma lengthSq_nonneg (v : Vector3) : 0 <= V3.lengthSq v.
Proof. unfold V3.lengthSq. nra. Qed.

Lemma lengthSq_multiplyScalar (v : Vector3) (k : R) :
  V3.lengthSq (V3.multiplyScalar v k) = k * k * V3.lengthSq v.
Proof. unfold V3.lengthSq, V3.multiplyScalar. simpl. ring. Qed.

Lemma length_sq (v : Vector3) : V3.length v * V3.length v = V3.lengthSq v.
Proof. unfold V3.length. apply sqrt_sqrt, lengthSq_nonneg. Qed.

Lemma length_nonneg (v : Vector3) : 0 <= V3.length v.
Proof. unfold V3.length. apply sqrt_pos. Qed.

Lemma length_of_square (v : Vector3) (l : R) :
  0 <= l -> V3.lengthSq v = l * l -> V3.length v = l.
Proof.
  intros Hl E. unfold V3.length. rewrite E. now apply sqrt_square.
Qed.

(** ** objectRadius *)

(** The last operand of the [??] chain is dead: a product is a number,
    never [null] or [undefined]. *)
Lemma objectRadius_last_resort_unreachable (B : R) (obj : option TargetMesh) :
  objectRadius B obj =
  nullish (boundingRadius obj) (jsMul (scaleX obj) (Number (Num B))).
Proof.
  unfold objectRadius.
  destruct (boundingRadius obj); simpl; [|reflexivity].
  unfold jsMul. destruct (toNumber (scaleX obj)); reflexivity.
Qed.

(** C2 (the code departs from the claim): for an absent body, and for a
    body that has neither a bounding sphere nor a scale, [objectRadius]
    returns [NaN], not the constant 1 and not a positive number. *)
Theorem objectRadius_absent_is_NaN :
  forall B : R,
    objectRadius B None = Number NaN /\
    objectRadius B (Some (mkTargetMesh None None V3.zero)) = Number NaN /\
    objectRadius B None <> Number (Num 1).
Proof.
  intros B. repeat split; try reflexivity. discriminate.
Qed.

(** Where the data is there, the helper does what its contract says. *)
Lemma objectRadius_bounding (B r : R) (c : Vector3) (sc : option Vector3)
  (wp : Vector3) :
  objectRadius B
    (Some (mkTargetMesh (Some (mkBufferGeometry (Some (mkSphere c r)))) sc wp))
  = Number (Num r).
Proof. reflexivity. Qed.

Lemma objectRadius_scale (B : R) (sc wp : Vector3) :
  objectRadius B
    (Some (mkTargetMesh (Some (mkBufferGeometry None)) (Some sc) wp))
  = Number (Num (vx sc * B)).
Proof. reflexivity. Qed.

(** ** updateAiPilot: the disengaged path *)

(** C7: with [isAiActive = false], or with the target absent, whatever
    the spacecraft and the prior input record, the three fields come out
    false and no scratch vector is written (no steering is computed). *)
Theorem updateAiPilot_disengaged :
  forall (B : R) (spacecraft : option Spacecraft)
         (targetObject : option TargetMesh) (inputState : InputState)
         (delta : R) (isAiActive : bool) (s : Scratch),
    updateAiPilot B spacecraft targetObject inputState delta false s
      = (mkInputState false false false, s)
    /\
    updateAiPilot B spacecraft None inputState delta isAiActive s
      = (mkInputState false false false, s).
Proof.
  intros. split.
  - reflexivity.
  - unfold updateAiPilot. destruct isAiActive, spacecraft; reflexivity.
Qed.

(** ** updateCelestials: pause *)

(** C9: with [isPaused = true] the collection is returned as it was, so
    every body reached through any chain of [moons] is unchanged, and
    with it its orbital and axial angle. *)
Theorem updateCelestials_paused_noop :
  forall (celestialBodies : list Body) (delta : R),
    updateCelestials celestialBodies delta true = celestialBodies /\
    forall path : list nat,
      descendantAt path (updateCelestials celestialBodies delta true)
      = descendantAt path celestialBodies.
Proof.
  intros bodies delta. split; reflexivity.
Qed.

(** ** updateTrajectoryLine *)

Lemma length_removelast_cons (v : Vector3) (l : list Vector3) :
  List.length (removelast (v :: l)) = List.length l.
Proof.
  revert v. induction l as [|w l IH]; intros v; [reflexivity|].
  change (removelast (v :: w :: l)) with (v :: removelast (w :: l)).
  cbn [List.length]. f_equal. apply IH.
Qed.

(** A points array that is not too long passes the loop untouched,
    with no fuel at all. *)
Lemma popWhileLonger_within (fuel : nat) (pts : list Vector3) (maxPoints : R) :
  INR (List.length pts) <= maxPoints ->
  popWhileLonger fuel pts maxPoints = Some pts.
Proof.
  intros H. destruct fuel; simpl;
    destruct (Rgt_dec (INR (List.length pts)) maxPoints); try reflexivity; lra.
Qed.

(** After one [unshift] onto an array within the bound, one turn of the
    loop is enough. *)
Lemma popWhileLonger_after_unshift (fuel : nat) (v : Vector3)
  (pts : list Vector3) (maxPoints : R) :
  INR (List.length pts) <= maxPoints ->
  (1 <= fuel)%nat ->
  exists pts',
    popWhileLonger fuel (v :: pts) maxPoints = Some pts' /\
    INR (List.length pts') <= maxPoints.
Proof.
  intros Hlen Hfuel.
  destruct fuel as [|fuel]; [lia|].
  cbn [popWhileLonger].
  destruct (Rgt_dec (INR (List.length (v :: pts))) maxPoints) as [Hgt|Hle].
  - exists (removelast (v :: pts)).
    assert (Hl : INR (List.length (removelast (v :: pts))) <= maxPoints)
      by now rewrite length_removelast_cons.
    split; [now apply popWhileLonger_within | exact Hl].
  - exists (v :: pts). split; [reflexivity | lra].
Qed.

(** One call keeps a bounded history bounded, and returns. *)
Lemma updateTrajectoryLine_bounded (fuel : nat) (sc : Spacecraft) (line : Line)
  (points : list Vector3) (maxPoints : R) :
  INR (List.length points) <= maxPoints ->
  (1 <= fuel)%nat ->
  exists line' points',
    updateTrajectoryLine fuel (Some sc) (Some line) (Some points) maxPoints
      = Some (Some line', Some points') /\
    INR (List.length points') <= maxPoints.
Proof.
  intros Hlen Hfuel. unfold updateTrajectoryLine.
  destruct (popWhileLonger_after_unshift fuel (sm_position (sc_mesh sc))
              points maxPoints Hlen Hfuel) as (pts' & Hpop & Hb).
  destruct points as [|newest rest].
  - rewrite Hpop. eauto.
  - destruct (V3.equals newest (sm_position (sc_mesh sc))); cbn [negb].
    + eauto.
    + rewrite Hpop. eauto.
Qed.

(** A call whose position is the newest entry changes nothing. *)
Lemma updateTrajectoryLine_same (fuel : nat) (sc : Spacecraft) (line : Line)
  (rest : list Vector3) (maxPoints : R) :
  updateTrajectoryLine fuel (Some sc) (Some line)
    (Some (sm_position (sc_mesh sc) :: rest)) maxPoints
  = Some (Some line, Some (sm_position (sc_mesh sc) :: rest)).
Proof.
  unfold updateTrajectoryLine. now rewrite equals_refl.
Qed.

(** C5: from a history no longer than [maxPoints], any sequence of calls
    with that [maxPoints] returns (one unit of loop fuel per call is
    enough) and leaves a history no longer than [maxPoints]; and five
    calls at one position, from the empty history with [maxPoints = 3],
    leave exactly that one point. *)
Theorem trajectory_history_bounded :
  (forall (fuel : nat) (crafts : list Spacecraft) (line : Line)
          (points : list Vector3) (maxPoints : R),
      INR (List.length points) <= maxPoints ->
      (1 <= fuel)%nat ->
      exists line' points',
        recordAll fuel crafts line points maxPoints = Some (line', points') /\
        INR (List.length points') <= maxPoints)
  /\
  (forall (fuel : nat) (sc : Spacecraft) (line : Line),
      exists line',
        recordAll fuel [sc; sc; sc; sc; sc] line [] 3
          = Some (line', [sm_position (sc_mesh sc)]) /\
        List.length [sm_position (sc_mesh sc)] = 1%nat).
Proof.
  split.
  - intros fuel crafts. induction crafts as [|sc rest IH];
      intros line points maxPoints Hlen Hfuel.
    + exists line, points. split; [reflexivity | exact Hlen].
    + destruct (updateTrajectoryLine_bounded fuel sc line points maxPoints
                  Hlen Hfuel) as (l1 & p1 & Hstep & Hb).
      cbn [recordAll]. rewrite Hstep. now apply IH.
  - intros fuel sc line.
    exists (mkLine [sm_position (sc_mesh sc)]). split; [|reflexivity].
    cbn [recordAll].
    assert (Hfirst :
      updateTrajectoryLine fuel (Some sc) (Some line) (Some []) 3
      = Some (Some (mkLine [sm_position (sc_mesh sc)]),
              Some [sm_position (sc_mesh sc)])).
    { unfold updateTrajectoryLine.
      rewrite popWhileLonger_within; [reflexivity | simpl; lra]. }
    rewrite Hfirst. now rewrite !updateTrajectoryLine_same.
Qed.

Lemma trajectory_history_bounded_witness :
  exists line' points',
    recordAll 1
      [mkSpacecraft (mkShipMesh (mkVector3 1 0 0) Quat.identity)
         V3.zero 0 0 0 0;
       mkSpacecraft (mkShipMesh (mkVector3 2 0 0) Quat.identity)
         V3.zero 0 0 0 0]
      (mkLine []) [mkVector3 0 0 0] 1
    = Some (line', points') /\
    INR (List.length points') <= 1.
Proof.
  apply (proj1 trajectory_history_bounded).
  - simpl. lra.
  - lia.
Defined.

(** C10: when the newest entry is exactly the spacecraft position, the
    points array and the line are left as they were; the truncation loop
    is not entered (no fuel is needed), whatever [maxPoints] is, so a
    history longer than [maxPoints] stays longer. *)
Theorem updateTrajectoryLine_duplicate_unchanged :
  forall (fuel : nat) (sc : Spacecraft) (line : Line)
         (newest : Vector3) (rest : list Vector3) (maxPoints : R),
    newest = sm_position (sc_mesh sc) ->
    updateTrajectoryLine fuel (Some sc) (Some line) (Some (newest :: rest))
      maxPoints
    = Some (Some line, Some (newest :: rest)).
Proof.
  intros fuel sc line newest rest maxPoints ->.
  apply updateTrajectoryLine_same.
Qed.

Lemma updateTrajectoryLine_duplicate_unchanged_witness :
  let p := mkVector3 1 2 3 in
  let sc := mkSpacecraft (mkShipMesh p Quat.identity) V3.zero 0 0 0 0 in
  let history := [p; mkVector3 0 2 3; mkVector3 0 1 3; mkVector3 0 0 3] in
  INR 2 < INR (List.length history) /\
  updateTrajectoryLine 0 (Some sc) (Some (mkLine history)) (Some history) 2
  = Some (Some (mkLine history), Some history).
Proof.
  intros p sc history. split.
  - simpl. lra.
  - apply (updateTrajectoryLine_duplicate_unchanged 0 sc (mkLine history) p).
    reflexivity.
Defined.

(** ** updateSpacecraft *)

Lemma updateSpacecraft_result (sc : Spacecraft) (inputState : InputState)
  (delta : R) (s : Scratch) :
  exists sc',
    fst (updateSpacecraft (Some sc) inputState delta s) = Some sc' /\
    velocity sc' = limited (draggedVelocity sc inputState delta) (maxSpeed sc) /\
    maxSpeed sc' = maxSpeed sc /\
    sc_mesh sc' =
      mkShipMesh
        (V3.add (sm_position (sc_mesh sc))
                (V3.multiplyScalar (velocity sc') delta))
        (sm_quaternion
           (rotateY (sc_mesh sc) (turnAmountOf sc inputState delta))) /\
    turnSpeed sc' = turnSpeed sc /\ thrustPower sc' = thrustPower sc /\
    drag sc' = drag sc.
Proof.
  unfold updateSpacecraft, draggedVelocity, turnAmountOf, limited,
    bind, ret, write, read.
  destruct (thrust inputState), (turnLeft inputState), (turnRight inputState);
    cbn [fst]; eexists; repeat split; reflexivity.
Qed.






(** *** The speed limit in binary64 *)


(** Overflow: when [lengthSq()] and [maxSpeed * maxSpeed] are both
    infinite the test [>] is false and nothing is rescaled, however far
    the speed is above [maxSpeed]. *)
Lemma binary64_overflow_skips_limit :
  B64.velocity B64.stepHuge = B64.velocity B64.craftHuge /\
  PrimFloat.ltb (B64.maxSpeed B64.craftHuge)
    (B64.vx (B64.velocity B64.stepHuge)) = true /\
  ~ B64.withinMaxSpeed (B64.velocity B64.stepHuge)
      (B64.maxSpeed B64.craftHuge).
Proof.
  split; [vm_compute; reflexivity|]. split; [vm_compute; reflexivity|].
  intros H. vm_compute in H. apply H. reflexivity.
Qed.


(** *** The order of the sub-steps *)

Lemma length_gt_iff (v : Vector3) (m : R) :
  0 <= m -> (V3.length v > m <-> V3.lengthSq v > m * m).
Proof.
  intros Hm. pose proof (length_nonneg v) as HL.
  rewrite <- length_sq. split; intros H; nra.
Qed.

(** The speed limit of the source is the clamp of the specification. *)
Lemma limited_is_clamp (v : Vector3) (m : R) :
  0 <= m ->
  limited v m =
  (if Rgt_dec (V3.length v) m
   then V3.multiplyScalar v (m / V3.length v) else v).
Proof.
  intros Hm. unfold limited.
  destruct (Rgt_dec (V3.lengthSq v) (m * m)) as [Hsq|Hsq];
    destruct (Rgt_dec (V3.length v) m) as [Hl|Hl];
    try reflexivity;
    try (exfalso; apply (length_gt_iff v m Hm) in Hsq; contradiction);
    try (exfalso; apply (length_gt_iff v m Hm) in Hl; contradiction).
  unfold V3.normalize, V3.divideScalar, V3.multiplyScalar.
  destruct (Req_dec_T (V3.length v) 0) as [E|NE]; [lra|].
  cbn [vx vy vz]. apply Vector3_eq; field; exact NE.
Qed.

Lemma turnAmountOf_spec (sc : Spacecraft) (input : InputState) (dt : R) :
  turnAmountOf sc input dt =
  (if turnLeft input then turnSpeed sc else 0) * dt
  + (if turnRight input then - turnSpeed sc else 0) * dt.
Proof.
  unfold turnAmountOf. destruct (turnLeft input), (turnRight input); ring.
Qed.

Lemma Spacecraft_eq (a b : Spacecraft) :
  sc_mesh a = sc_mesh b -> velocity a = velocity b ->
  turnSpeed a = turnSpeed b -> thrustPower a = thrustPower b ->
  drag a = drag b -> maxSpeed a = maxSpeed b -> a = b.
Proof. destruct a, b; simpl; congruence. Qed.

(** [updateSpacecraft] is turn, thrust, drag, clamp, integrate. *)
Lemma updateSpacecraft_refines_step (sc : Spacecraft) (input : InputState)
  (dt : R) (s : Scratch) :
  0 <= maxSpeed sc ->
  fst (updateSpacecraft (Some sc) input dt s) = Some (StepSpec.step sc input dt).
Proof.
  intros Hm.
  destruct (updateSpacecraft_result sc input dt s)
    as (sc' & Hrun & Hvel & Hmax & Hmesh & Hts & Htp & Hdr).
  rewrite Hrun. f_equal.
  assert (Hv : velocity sc' = velocity (StepSpec.step sc input dt)).
  { rewrite Hvel, limited_is_clamp by exact Hm.
    unfold draggedVelocity. rewrite turnAmountOf_spec. reflexivity. }
  apply Spacecraft_eq; try assumption.
  rewrite Hmesh, Hv, turnAmountOf_spec. reflexivity.
Qed.

Lemma rotateY_zero (m : ShipMesh) : rotateY m 0 = m.
Proof.
  unfold rotateY, Quat.setFromAxisAngle, Quat.multiply. cbn [vx vy vz qx qy qz qw].
  replace (0 / 2) with 0 by field. rewrite sin_0, cos_0.
  destruct m as [p [a b c d]]. cbn [sm_position sm_quaternion qx qy qz qw].
  f_equal. f_equal; ring.
Qed.

(** Drag before clamp and clamp before drag are different programs:
    coasting at speed 40 with drag 0.5 and a limit of 30 ends at speed 20
    in the source's order and at 15 in the other. *)
Lemma drag_clamp_order_matters :
  let sc := mkSpacecraft (mkShipMesh V3.zero Quat.identity)
              (mkVector3 0 0 (-40)) 2.5 7.0 0.5 30 in
  let idle := mkInputState false false false in
  velocity (StepSpec.step sc idle 1) = mkVector3 0 0 (-20) /\
  velocity (StepSpec.stepClampFirst sc idle 1) = mkVector3 0 0 (-15).
Proof.
  intros sc idle.
  assert (L40 : V3.length (mkVector3 0 0 (-40)) = 40).
  { apply length_of_square; [lra|].
    unfold V3.lengthSq. cbn [vx vy vz]. lra. }
  assert (L20 : V3.length (V3.multiplyScalar (mkVector3 0 0 (-40)) 0.5) = 20).
  { apply length_of_square; [lra|].
    unfold V3.lengthSq, V3.multiplyScalar. cbn [vx vy vz]. lra. }
  split.
  - unfold StepSpec.step, StepSpec.integrate, StepSpec.clampSpeed,
      StepSpec.applyDrag, StepSpec.applyThrust, StepSpec.turn, sc, idle.
    cbn [velocity thrust maxSpeed drag V3.multiplyScalar vx vy vz].
    rewrite L20. destruct (Rgt_dec 20 30); [lra|].
    unfold V3.multiplyScalar. cbn [vx vy vz]. apply Vector3_eq; lra.
  - unfold StepSpec.stepClampFirst, StepSpec.integrate, StepSpec.clampSpeed,
      StepSpec.applyDrag, StepSpec.applyThrust, StepSpec.turn, sc, idle.
    cbn [velocity thrust maxSpeed drag].
    rewrite L40. destruct (Rgt_dec 40 30); [|lra].
    unfold V3.multiplyScalar. cbn [velocity vx vy vz].
    apply Vector3_eq; lra.
Qed.

(** C6: [updateSpacecraft] is exactly turn, then thrust, then drag, then
    clamp, then integrate; and from rest, heading along -Z, with
    [thrustPower = 7.0], [drag = 0.98], [maxSpeed = 30], one step with only
    [thrust] set and [delta = 1.0] leaves a velocity of length
    [7.0 * 0.98 = 6.86] along -Z and moves the position by that velocity
    times [delta]. *)
Theorem updateSpacecraft_order_and_thrust_tick :
  forall (sc : Spacecraft) (s : Scratch),
    0 < maxSpeed sc ->
    (forall (inputState : InputState) (delta : R),
        fst (updateSpacecraft (Some sc) inputState delta s)
        = Some (StepSpec.integrate delta
                  (StepSpec.clampSpeed
                     (StepSpec.applyDrag
                        (StepSpec.applyThrust inputState delta
                           (StepSpec.turn inputState delta sc))))))
    /\
    (velocity sc = V3.zero ->
     StepSpec.forward sc = mkVector3 0 0 (-1) ->
     thrustPower sc = 7.0 -> drag sc = 0.98 -> maxSpeed sc = 30 ->
     exists sc',
       fst (updateSpacecraft (Some sc) (mkInputState true false false) 1.0 s)
       = Some sc' /\
       velocity sc' = mkVector3 0 0 (- 6.86) /\
       V3.length (velocity sc') = 7.0 * 0.98 /\
       7.0 * 0.98 = 6.86 /\
       sm_position (sc_mesh sc')
       = V3.add (sm_position (sc_mesh sc))
                (V3.multiplyScalar (mkVector3 0 0 (- 6.86)) 1.0)).
Proof.
  intros sc s Hm. split.
  - intros inputState delta.
    apply updateSpacecraft_refines_step. lra.
  - intros Hv Hf Htp Hd Hmax.
    destruct (updateSpacecraft_result sc (mkInputState true false false) 1.0 s)
      as (sc' & Hrun & Hvel & _ & Hmesh & _).
    assert (Hdv : draggedVelocity sc (mkInputState true false false) 1.0
                  = mkVector3 0 0 (- 6.86)).
    { unfold draggedVelocity, turnAmountOf. cbn [thrust turnLeft turnRight].
      rewrite rotateY_zero. unfold StepSpec.forward in Hf.
      unfold V3.set. rewrite Hf, Hv, Htp, Hd.
      unfold V3.add, V3.multiplyScalar, V3.zero. cbn [vx vy vz].
      apply Vector3_eq; lra. }
    assert (Hlen : V3.length (mkVector3 0 0 (- 6.86)) = 6.86).
    { apply length_of_square; [lra|].
      unfold V3.lengthSq. cbn [vx vy vz]. lra. }
    assert (Hlim : limited (mkVector3 0 0 (- 6.86)) 30 = mkVector3 0 0 (- 6.86)).
    { rewrite limited_is_clamp by lra. rewrite Hlen.
      destruct (Rgt_dec 6.86 30); [lra | reflexivity]. }
    rewrite Hdv, Hmax, Hlim in Hvel.
    exists sc'. split; [exact Hrun|]. split; [exact Hvel|].
    split; [rewrite Hvel, Hlen; lra|]. split; [lra|].
    rewrite Hmesh, Hvel. reflexivity.
Qed.

Lemma updateSpacecraft_order_and_thrust_tick_witness :
  let sc := mkSpacecraft (mkShipMesh V3.zero Quat.identity)
              V3.zero 2.5 7.0 0.98 30 in
  let s := mkScratch V3.zero V3.zero V3.zero in
  exists sc',
    fst (updateSpacecraft (Some sc) (mkInputState true false false) 1.0 s)
    = Some sc' /\
    velocity sc' = mkVector3 0 0 (- 6.86) /\
    V3.length (velocity sc') = 7.0 * 0.98 /\
    7.0 * 0.98 = 6.86 /\
    sm_position (sc_mesh sc')
    = V3.add (sm_position (sc_mesh sc))
             (V3.multiplyScalar (mkVector3 0 0 (- 6.86)) 1.0).
Proof.
  intros sc s.
  apply (proj2 (updateSpacecraft_order_and_thrust_tick sc s
                  ltac:(simpl; lra))).
  - reflexivity.
  - unfold StepSpec.forward, Quat.applyTo, sc. simpl.
    apply Vector3_eq; ring.
  - reflexivity.
  - reflexivity.
  - reflexivity.
Defined.

(** ** updateCelestials: what is advanced *)

Lemma updateBody_advanced (delta : R) (b : Body) :
  advancedBy delta b (updateBody delta b).
Proof.
  split; intros o w Ho Hw; cbn [updateBody pivot mesh];
    rewrite Ho, Hw; reflexivity.
Qed.

Lemma updateMoon_advanced (delta : R) (b : Body) :
  advancedBy delta b (updateMoon delta b).
Proof.
  split; intros o w Ho Hw; cbn [updateMoon pivot mesh];
    rewrite Ho, Hw; reflexivity.
Qed.

(** C8 as stated fails: the moon of a moon keeps its orbital angle. *)
Lemma updateCelestials_skips_moons_of_moons : ~ advancesAtEveryDepth.
Proof.
  intros H.
  destruct (H [planetWithNestedMoons] 1 [0%nat; 0%nat; 0%nat] subMoon
              eq_refl) as (b' & Hb' & Hadv & _).
  cbn in Hb'. injection Hb' as <-.
  specialize (Hadv (mkObject3D V3.zero 0) 1 eq_refl eq_refl).
  cbn in Hadv. injection Hadv as Hangle. lra.
Qed.

(** C8 (amended): an unpaused [updateCelestials] adds [speed * delta] to
    the pivot angle and [axialSpeed * delta] to the mesh angle of every
    body of the collection and of every moon listed in a body's [moons]
    (a rotation whose object or numeric rate is missing is skipped);
    bodies nested deeper than that are left as they were. *)
Theorem updateCelestials_advances_bodies_and_moons :
  forall (celestialBodies : list Body) (delta : R) (path : list nat),
    ((List.length path <= 2)%nat ->
     forall b : Body,
       descendantAt path celestialBodies = Some b ->
       exists b',
         descendantAt path (updateCelestials celestialBodies delta false)
           = Some b' /\
         advancedBy delta b b' /\
         speed b' = speed b /\ axialSpeed b' = axialSpeed b)
    /\
    ((2 < List.length path)%nat ->
     descendantAt path (updateCelestials celestialBodies delta false)
     = descendantAt path celestialBodies).
Proof.
  intros bodies delta path. unfold updateCelestials. split.
  - intros Hlen b Hb.
    destruct path as [|i [|j [|k rest]]]; cbn in Hlen; try lia.
    + discriminate.
    + cbn [descendantAt] in *. rewrite nth_error_map.
      destruct (nth_error bodies i) as [pb|]; [|discriminate].
      injection Hb as ->. exists (updateBody delta b).
      repeat split; try reflexivity; apply updateBody_advanced.
    + cbn [descendantAt] in *. rewrite nth_error_map.
      destruct (nth_error bodies i) as [pb|]; [|discriminate].
      cbn [option_map updateBody moons].
      destruct (moons pb) as [ms|]; [|discriminate].
      rewrite nth_error_map.
      destruct (nth_error ms j) as [m|]; [|discriminate].
      injection Hb as ->. exists (updateMoon delta b).
      repeat split; try reflexivity; apply updateMoon_advanced.
  - intros Hlen.
    destruct path as [|i [|j [|k rest]]]; cbn in Hlen; try lia.
    cbn [descendantAt]. rewrite nth_error_map.
    destruct (nth_error bodies i) as [pb|]; [|reflexivity].
    cbn [option_map updateBody moons].
    destruct (moons pb) as [ms|]; [|reflexivity].
    rewrite nth_error_map.
    destruct (nth_error ms j) as [m|]; reflexivity.
Qed.

Lemma updateCelestials_advances_bodies_and_moons_witness :
  (exists b',
     descendantAt [0%nat; 0%nat]
       (updateCelestials [planetWithNestedMoons] 2 false) = Some b' /\
     advancedBy 2 moonWithMoon b' /\
     speed b' = speed moonWithMoon /\ axialSpeed b' = axialSpeed moonWithMoon)
  /\
  descendantAt [0%nat; 0%nat; 0%nat]
    (updateCelestials [planetWithNestedMoons] 2 false)
  = descendantAt [0%nat; 0%nat; 0%nat] [planetWithNestedMoons].
Proof.
  split.
  - apply (proj1 (updateCelestials_advances_bodies_and_moons
                    [planetWithNestedMoons] 2 [0%nat; 0%nat])).
    + simpl. lia.
    + reflexivity.
  - apply (proj2 (updateCelestials_advances_bodies_and_moons
                    [planetWithNestedMoons] 2 [0%nat; 0%nat; 0%nat])).
    simpl. lia.
Defined.

(** ** calculateFuturePosition at [timeAhead = 0] *)

(** For a body whose pivot hangs directly under the scene and whose mesh
    sits on the pivot's X axis, the prediction at zero and the world
    position of the mesh have the same X and Y and opposite Z offsets from
    the pivot: three.js turns +X towards -Z for a positive [rotation.y],
    the predictor towards +Z. *)
Lemma calculateFuturePosition_zero_vs_world (p : Object3D) (d theta w : R)
  (ax : option R) (ms : option (list Body)) :
  let b := mkBody (Some (mkObject3D (mkVector3 d 0 0) theta)) (Some p)
             (Some w) ax ms in
  calculateFuturePosition [] (Some b) 0
    = mkVector3 (vx (position p) + cos (rotation_y p) * d)
                (vy (position p))
                (vz (position p) + sin (rotation_y p) * d)
  /\
  meshWorldPosition [] b
    = Some (mkVector3 (vx (position p) + cos (rotation_y p) * d)
                      (vy (position p))
                      (vz (position p) - sin (rotation_y p) * d)).
Proof.
  intros b. split.
  - unfold calculateFuturePosition, b. cbn [pivot speed mesh position vx].
    replace (rotation_y p + w * 0) with (rotation_y p) by ring.
    unfold getWorldPosition, localToWorld, localToParent, applyEulerY,
      V3.add, V3.zero. cbn [vx vy vz].
    apply Vector3_eq; ring.
  - unfold meshWorldPosition, b. cbn [pivot mesh]. f_equal.
    unfold getWorldPosition, localToWorld, localToParent, applyEulerY,
      V3.add, V3.zero. cbn [vx vy vz position rotation_y].
    apply Vector3_eq; ring.
Qed.

(** C1 (the code departs from the claim): for Earth a quarter turn into
    its orbit, [calculateFuturePosition] with [timeAhead = 0] returns
    [(0, 0, 38)] while the world position of the mesh, composed through the
    pivot's Y rotation, is [(0, 0, -38)]. *)
Theorem calculateFuturePosition_zero_not_current :
  calculateFuturePosition [] (Some earthAtQuarterTurn) 0 = mkVector3 0 0 38 /\
  meshWorldPosition [] earthAtQuarterTurn = Some (mkVector3 0 0 (-38)) /\
  Some (calculateFuturePosition [] (Some earthAtQuarterTurn) 0)
    <> meshWorldPosition [] earthAtQuarterTurn.
Proof.
  destruct (calculateFuturePosition_zero_vs_world
              (mkObject3D V3.zero (PI / 2)) 38 0 0.3 (Some 0.2) (Some []))
    as [Hpred Hworld].
  cbn [position rotation_y V3.zero vx vy vz] in Hpred, Hworld.
  rewrite cos_PI2, sin_PI2 in Hpred, Hworld.
  assert (Ep : calculateFuturePosition [] (Some earthAtQuarterTurn) 0
               = mkVector3 0 0 38).
  { unfold earthAtQuarterTurn. rewrite Hpred. apply Vector3_eq; lra. }
  assert (Ew : meshWorldPosition [] earthAtQuarterTurn
               = Some (mkVector3 0 0 (-38))).
  { unfold earthAtQuarterTurn. rewrite Hworld. f_equal.
    apply Vector3_eq; lra. }
  repeat split; [exact Ep | exact Ew |].
  rewrite Ep, Ew. intros [= H]. lra.
Qed.

(** ** updateAiPilot: the engaged path *)

Section Autopilot.

Variable BASE_PLANET_RADIUS : R.

(** What the engaged autopilot computes, with the scratch vectors read
    out.  [targetPos] and [cross] are both [_updateTempVec3]: by the time
    [distanceToTarget] is taken, that vector holds the cross product, so
    the distance is measured from the craft to the cross product. *)
Lemma updateAiPilot_engaged (sc : Spacecraft) (target : TargetMesh)
  (inputState : InputState) (delta : R) (s : Scratch) :
  let q := sm_quaternion (sc_mesh sc) in
  let shipPos := sm_position (sc_mesh sc) in
  let fwd := Quat.applyTo (V3.set 0 0 (-1)) q in
  let dir := V3.normalize (V3.subVectors (matrixWorldPosition target) shipPos) in
  let cross := V3.crossVectors fwd dir in
  fst (updateAiPilot BASE_PLANET_RADIUS (Some sc) (Some target) inputState
         delta true s)
  = if Rgt_dec (V3.angleTo fwd dir) (degToRad 5) then
      if Rgt_dec (Math_sign (V3.dot cross (Quat.applyTo (mkVector3 0 1 0) q))) 0
      then mkInputState false true false
      else mkInputState false false true
    else
      if jsGt (Number (Num (V3.distanceTo shipPos cross)))
              (jsMul (objectRadius BASE_PLANET_RADIUS (Some target))
                     (Number (Num 2)))
      then mkInputState true false false
      else mkInputState false false false.
Proof.
  intros q shipPos fwd dir cross.
  unfold updateAiPilot, getWorldPositionInto, bind, ret, write, read.
  cbn [_updateShipForward _updateTempVec3 _updateTargetDirection fst].
  fold q shipPos. fold fwd. fold dir. fold cross.
  destruct (Rgt_dec (V3.angleTo fwd dir) (degToRad 5)).
  - destruct (Rgt_dec _ 0); reflexivity.
  - destruct (jsGt _ _); reflexivity.
Qed.

(** The turning half of C4 holds: past the threshold exactly one turn
    flag is set and [thrust] is off. *)
Lemma updateAiPilot_turn_branch (sc : Spacecraft) (target : TargetMesh)
  (inputState : InputState) (delta : R) (s : Scratch) :
  V3.angleTo (Quat.applyTo (V3.set 0 0 (-1)) (sm_quaternion (sc_mesh sc)))
    (V3.normalize (V3.subVectors (matrixWorldPosition target)
                                 (sm_position (sc_mesh sc))))
    > degToRad 5 ->
  let r := fst (updateAiPilot BASE_PLANET_RADIUS (Some sc) (Some target)
                  inputState delta true s) in
  xorb (turnLeft r) (turnRight r) = true /\ thrust r = false.
Proof.
  intros Hangle r. unfold r. rewrite updateAiPilot_engaged.
  destruct (Rgt_dec _ (degToRad 5)) as [_|N]; [|contradiction].
  destruct (Rgt_dec _ 0); split; reflexivity.
Qed.

(** Within the threshold both turn flags are off, and [thrust] follows the
    distance from the craft to the cross product of the two directions. *)
Lemma updateAiPilot_facing_branch (sc : Spacecraft) (target : TargetMesh)
  (inputState : InputState) (delta : R) (s : Scratch) (rad : R) :
  let fwd := Quat.applyTo (V3.set 0 0 (-1)) (sm_quaternion (sc_mesh sc)) in
  let dir := V3.normalize (V3.subVectors (matrixWorldPosition target)
                                         (sm_position (sc_mesh sc))) in
  ~ V3.angleTo fwd dir > degToRad 5 ->
  objectRadius BASE_PLANET_RADIUS (Some target) = Number (Num rad) ->
  let r := fst (updateAiPilot BASE_PLANET_RADIUS (Some sc) (Some target)
                  inputState delta true s) in
  turnLeft r = false /\ turnRight r = false /\
  (thrust r = true <->
   V3.distanceTo (sm_position (sc_mesh sc)) (V3.crossVectors fwd dir)
     > rad * 2).
Proof.
  intros fwd dir Hangle Hrad r. unfold r. rewrite updateAiPilot_engaged.
  fold fwd dir.
  destruct (Rgt_dec (V3.angleTo fwd dir) (degToRad 5)) as [Y|_];
    [contradiction|].
  rewrite Hrad. unfold jsGt, jsMul, toNumber.
  destruct (Rgt_dec _ (rad * 2)) as [G|G]; cbn [turnLeft turnRight thrust];
    repeat split; try reflexivity; try tauto; intros; try discriminate.
Qed.

Lemma craftAtOrigin_forward :
  Quat.applyTo (V3.set 0 0 (-1)) (sm_quaternion (sc_mesh craftAtOrigin))
  = mkVector3 0 0 (-1).
Proof.
  unfold Quat.applyTo, V3.set, craftAtOrigin, Quat.identity.
  cbn [sc_mesh sm_quaternion qx qy qz qw vx vy vz].
  apply Vector3_eq; ring.
Qed.

Lemma targetAhead_direction :
  V3.normalize (V3.subVectors (matrixWorldPosition targetAhead)
                              (sm_position (sc_mesh craftAtOrigin)))
  = mkVector3 0 0 (-1).
Proof.
  assert (L : V3.length (V3.subVectors (matrixWorldPosition targetAhead)
                           (sm_position (sc_mesh craftAtOrigin))) = 100).
  { apply length_of_square; [lra|].
    unfold V3.lengthSq, V3.subVectors, targetAhead, craftAtOrigin, V3.zero.
    cbn [matrixWorldPosition sc_mesh sm_position vx vy vz]. lra. }
  unfold V3.normalize. rewrite L.
  destruct (Req_dec_T 100 0) as [E|_]; [lra|].
  unfold V3.divideScalar, V3.multiplyScalar, V3.subVectors, targetAhead,
    craftAtOrigin, V3.zero.
  cbn [matrixWorldPosition sc_mesh sm_position vx vy vz].
  apply Vector3_eq; lra.
Qed.

Lemma angleTo_same_unit_z :
  V3.angleTo (mkVector3 0 0 (-1)) (mkVector3 0 0 (-1)) = 0.
Proof.
  unfold V3.angleTo, V3.lengthSq, V3.dot, V3.clamp. cbn [vx vy vz].
  replace ((0 * 0 + 0 * 0 + -1 * -1) * (0 * 0 + 0 * 0 + -1 * -1)) with 1 by ring.
  rewrite sqrt_1. destruct (Req_dec_T 1 0) as [E|_]; [lra|].
  replace ((0 * 0 + 0 * 0 + -1 * -1) / 1) with 1 by field.
  rewrite Rmin_left by lra. rewrite Rmax_right by lra. apply acos_1.
Qed.

(** C4 (the code departs from the claim): the craft at the origin faces a
    target of radius 1 that is straight ahead at distance 100.  The bearing
    angle is 0, the distance to the target exceeds twice its radius, and
    yet the autopilot leaves [thrust] off: it compares the distance from
    the craft to the overwritten scratch vector, which is 0 here. *)
Theorem updateAiPilot_no_thrust_towards_far_target :
  forall (inputState : InputState) (delta : R) (s : Scratch),
    V3.angleTo
      (Quat.applyTo (V3.set 0 0 (-1)) (sm_quaternion (sc_mesh craftAtOrigin)))
      (V3.normalize (V3.subVectors (matrixWorldPosition targetAhead)
                                   (sm_position (sc_mesh craftAtOrigin))))
      <= degToRad 5
    /\ objectRadius BASE_PLANET_RADIUS (Some targetAhead) = Number (Num 1)
    /\ V3.distanceTo (sm_position (sc_mesh craftAtOrigin))
         (matrixWorldPosition targetAhead) > 2.0 * 1
    /\ fst (updateAiPilot BASE_PLANET_RADIUS (Some craftAtOrigin)
              (Some targetAhead) inputState delta true s)
       = mkInputState false false false.
Proof.
  intros inputState delta s.
  pose proof PI_RGT_0 as Hpi.
  assert (Hthr : 0 <= degToRad 5) by (unfold degToRad; lra).
  assert (Hdist : V3.distanceTo (sm_position (sc_mesh craftAtOrigin))
                    (matrixWorldPosition targetAhead) = 100).
  { unfold V3.distanceTo, V3.distanceToSquared, craftAtOrigin, targetAhead,
      V3.zero. cbn [matrixWorldPosition sc_mesh sm_position vx vy vz].
    replace ((0 - 0) * (0 - 0) + (0 - 0) * (0 - 0) + (0 - -100) * (0 - -100))
      with (100 * 100) by ring.
    apply sqrt_square. lra. }
  repeat split.
  - rewrite craftAtOrigin_forward, targetAhead_direction, angleTo_same_unit_z.
    exact Hthr.
  - rewrite Hdist. lra.
  - rewrite updateAiPilot_engaged.
    rewrite craftAtOrigin_forward, targetAhead_direction, angleTo_same_unit_z.
    destruct (Rgt_dec 0 (degToRad 5)) as [Y|_]; [lra|].
    assert (Hcross : V3.distanceTo (sm_position (sc_mesh craftAtOrigin))
                       (V3.crossVectors (mkVector3 0 0 (-1)) (mkVector3 0 0 (-1)))
                     = 0).
    { unfold V3.distanceTo, V3.distanceToSquared, V3.crossVectors,
        craftAtOrigin, V3.zero. cbn [sc_mesh sm_position vx vy vz].
      match goal with |- sqrt ?e = 0 => replace e with 0 by ring end.
      apply sqrt_0. }
    rewrite Hcross.
    unfold jsGt, jsMul, toNumber, objectRadius, nullish, boundingRadius,
      targetAhead.
    cbn [geometry boundingSphere radius].
    destruct (Rgt_dec 0 (1 * 2)) as [G|_]; [lra | reflexivity].
Qed.

End Autopilot.

(** * Further properties of the simulation code *)

(** ** updateCelestials: integration of the angles *)

Lemma addRotationY_add (o : option Object3D) (rate : option R) (d1 d2 : R) :
  addRotationY (addRotationY o rate d1) rate d2 = addRotationY o rate (d1 + d2).
Proof.
  destruct o as [[p a]|], rate as [w|]; cbn; try reflexivity.
  do 2 f_equal. ring.
Qed.

Lemma updateMoon_add (d1 d2 : R) (m : Body) :
  updateMoon d2 (updateMoon d1 m) = updateMoon (d1 + d2) m.
Proof.
  unfold updateMoon. cbn [mesh pivot speed axialSpeed moons].
  now rewrite !addRotationY_add.
Qed.

Lemma updateBody_add (d1 d2 : R) (b : Body) :
  updateBody d2 (updateBody d1 b) = updateBody (d1 + d2) b.
Proof.
  unfold updateBody. cbn [mesh pivot speed axialSpeed moons].
  rewrite !addRotationY_add. f_equal.
  destruct (moons b) as [ms|]; [|reflexivity].
  f_equal. rewrite map_map. apply map_ext. intros m. apply updateMoon_add.
Qed.

Lemma updateCelestials_additive :
  forall (bodies : list Body) (dt1 dt2 : R),
    updateCelestials (updateCelestials bodies dt1 false) dt2 false
    = updateCelestials bodies (dt1 + dt2) false.
Proof.
  intros bodies dt1 dt2. unfold updateCelestials.
  rewrite map_map. apply map_ext. intros b. apply updateBody_add.
Qed.

(** A zero time step changes nothing. *)
Lemma updateCelestials_zero (bodies : list Body) :
  updateCelestials bodies 0 false = bodies.
Proof.
  assert (Hrot : forall o rate, addRotationY o rate 0 = o).
  { intros [[p a]|] [w|]; cbn; try reflexivity. do 2 f_equal. ring. }
  assert (Hmoon : forall m, updateMoon 0 m = m).
  { intros [me pi sp ax ms]. unfold updateMoon. cbn. now rewrite !Hrot. }
  unfold updateCelestials. rewrite <- (map_id bodies) at 2.
  apply map_ext. intros [me pi sp ax ms]. unfold updateBody. cbn.
  rewrite !Hrot. f_equal. destruct ms as [ms|]; [|reflexivity].
  f_equal. rewrite <- (map_id ms) at 2. apply map_ext, Hmoon.
Qed.

Lemma updateCelestialsSeq_elapsed (deltas : list R) :
  forall bodies : list Body,
    updateCelestialsSeq deltas bodies
    = updateCelestials bodies (elapsed deltas) false.
Proof.
  induction deltas as [|d rest IH]; intros bodies.
  - cbn [updateCelestialsSeq elapsed fold_right].
    now rewrite updateCelestials_zero.
  - cbn [updateCelestialsSeq elapsed fold_right]. rewrite IH.
    apply updateCelestials_additive.
Qed.

(** Unpaused updates integrate exactly: two in a row are one update by
    the summed time step, and any sequence of them leaves every angle of
    every body and moon where one update by the elapsed time puts it. *)
Theorem updateCelestials_integrates_exactly :
  (forall (bodies : list Body) (dt1 dt2 : R),
      updateCelestials (updateCelestials bodies dt1 false) dt2 false
      = updateCelestials bodies (dt1 + dt2) false)
  /\
  (forall (deltas : list R) (bodies : list Body),
      updateCelestialsSeq deltas bodies
      = updateCelestials bodies (elapsed deltas) false).
Proof.
  split.
  - apply updateCelestials_additive.
  - apply updateCelestialsSeq_elapsed.
Qed.

Lemma addRotationY_position (o : option Object3D) (rate : option R) (d : R) :
  option_map position (addRotationY o rate d) = option_map position o.
Proof. destruct o as [[p a]|], rate; reflexivity. Qed.

Lemma updateBody_sameShape (delta : R) (b : Body) :
  sameShape b (updateBody delta b).
Proof.
  unfold sameShape, updateBody. cbn [mesh pivot speed axialSpeed moons].
  rewrite !addRotationY_position. repeat split.
  destruct (moons b); cbn; [now rewrite length_map | reflexivity].
Qed.

Lemma updateMoon_sameShape (delta : R) (b : Body) :
  sameShape b (updateMoon delta b).
Proof.
  unfold sameShape, updateMoon. cbn [mesh pivot speed axialSpeed moons].
  rewrite !addRotationY_position. repeat split.
Qed.

Lemma sameShape_refl (b : Body) : sameShape b b.
Proof. unfold sameShape. repeat split. Qed.

(** The bodies found along any path after an unpaused update. *)
Lemma descendantAt_updateCelestials (bodies : list Body) (delta : R)
  (path : list nat) (b : Body) :
  descendantAt path bodies = Some b ->
  descendantAt path (updateCelestials bodies delta false)
  = Some (match path with
          | [_] => updateBody delta b
          | [_; _] => updateMoon delta b
          | _ => b
          end).
Proof.
  unfold updateCelestials. intros Hb.
  destruct path as [|i [|j [|k rest]]]; [discriminate| | |].
  - cbn [descendantAt] in *. rewrite nth_error_map.
    destruct (nth_error bodies i); [|discriminate]. now injection Hb as ->.
  - cbn [descendantAt] in *. rewrite nth_error_map.
    destruct (nth_error bodies i) as [pb|]; [|discriminate].
    cbn [option_map updateBody moons].
    destruct (moons pb) as [ms|]; [|discriminate].
    rewrite nth_error_map.
    destruct (nth_error ms j); [|discriminate]. now injection Hb as ->.
  - cbn [descendantAt] in *. rewrite nth_error_map.
    destruct (nth_error bodies i) as [pb|]; [|discriminate].
    cbn [option_map updateBody moons].
    destruct (moons pb) as [ms|]; [|discriminate].
    rewrite nth_error_map.
    destruct (nth_error ms j) as [m|]; [|discriminate].
    exact Hb.
Qed.

(** An update, paused or not, keeps the collection's length and, for the
    body at every path, the positions of pivot and mesh (so the orbital
    radius), both rates and the number of moons: only angles change. *)
Theorem updateCelestials_changes_only_angles :
  forall (bodies : list Body) (delta : R) (isPaused : bool),
    List.length (updateCelestials bodies delta isPaused) = List.length bodies
    /\
    forall (path : list nat) (b : Body),
      descendantAt path bodies = Some b ->
      exists b',
        descendantAt path (updateCelestials bodies delta isPaused) = Some b' /\
        sameShape b b'.
Proof.
  intros bodies delta [|].
  - split; [reflexivity|]. intros path b Hb. exists b.
    split; [exact Hb | apply sameShape_refl].
  - split; [unfold updateCelestials; apply length_map|].
    intros path b Hb.
    rewrite (descendantAt_updateCelestials bodies delta path b Hb).
    eexists. split; [reflexivity|].
    destruct path as [|i [|j [|k rest]]];
      auto using sameShape_refl, updateBody_sameShape, updateMoon_sameShape.
Qed.

Lemma updateCelestials_changes_only_angles_witness :
  exists b',
    descendantAt [0%nat; 0%nat]
      (updateCelestials [planetWithNestedMoons] 3 false) = Some b' /\
    sameShape moonWithMoon b'.
Proof.
  apply (proj2 (updateCelestials_changes_only_angles
                  [planetWithNestedMoons] 3 false)).
  reflexivity.
Defined.

(** ** World positions and calculateFuturePosition *)

Lemma sin_cos_sq (a : R) : sin a * sin a + cos a * cos a = 1.
Proof. pose proof (sin2_cos2 a) as H. unfold Rsqr in H. exact H. Qed.

Lemma getWorldPosition_eq (anc : list Object3D) (o : Object3D) :
  getWorldPosition anc o = localToWorld anc (position o).
Proof.
  unfold getWorldPosition. cbn [localToWorld]. f_equal.
  unfold localToParent, applyEulerY, V3.add, V3.zero. cbn [vx vy vz].
  destruct (position o) as [a b c]. cbn [vx vy vz].
  apply Vector3_eq; ring.
Qed.

(** The local matrix of an object is a rigid motion. *)
Lemma distanceToSquared_localToParent (o : Object3D) (u v : Vector3) :
  V3.distanceToSquared (localToParent o u) (localToParent o v)
  = V3.distanceToSquared u v.
Proof.
  unfold V3.distanceToSquared, localToParent, applyEulerY, V3.add.
  cbn [vx vy vz].
  set (c := cos (rotation_y o)). set (s := sin (rotation_y o)).
  replace ((c * vx u + s * vz u + vx (position o)
            - (c * vx v + s * vz v + vx (position o)))
           * (c * vx u + s * vz u + vx (position o)
              - (c * vx v + s * vz v + vx (position o)))
           + (vy u + vy (position o) - (vy v + vy (position o)))
             * (vy u + vy (position o) - (vy v + vy (position o)))
           + (- s * vx u + c * vz u + vz (position o)
              - (- s * vx v + c * vz v + vz (position o)))
             * (- s * vx u + c * vz u + vz (position o)
                - (- s * vx v + c * vz v + vz (position o))))
    with ((s * s + c * c)
          * ((vx u - vx v) * (vx u - vx v) + (vz u - vz v) * (vz u - vz v))
          + (vy u - vy v) * (vy u - vy v)) by ring.
  unfold s, c. rewrite sin_cos_sq. ring.
Qed.

Lemma distanceToSquared_localToWorld (anc : list Object3D) :
  forall u v : Vector3,
    V3.distanceToSquared (localToWorld anc u) (localToWorld anc v)
    = V3.distanceToSquared u v.
Proof.
  induction anc as [|o up IH]; intros u v; [reflexivity|].
  cbn [localToWorld]. rewrite IH. apply distanceToSquared_localToParent.
Qed.

Lemma distanceToSquared_zero_r (u : Vector3) :
  V3.distanceToSquared u V3.zero = V3.lengthSq u.
Proof.
  unfold V3.distanceToSquared, V3.lengthSq, V3.zero. cbn [vx vy vz]. ring.
Qed.

(** Whatever the angles and wherever the pivot hangs in the scene graph,
    a mesh is as far from its pivot, in world coordinates, as its local
    position is long: an update keeps every body on a circle of its
    authored radius around its pivot. *)
Theorem updateBody_keeps_orbital_radius :
  forall (anc : list Object3D) (b : Body) (p m : Object3D) (delta : R),
    pivot b = Some p -> mesh b = Some m ->
    exists wp p',
      meshWorldPosition anc (updateBody delta b) = Some wp /\
      pivot (updateBody delta b) = Some p' /\
      V3.distanceTo wp (getWorldPosition anc p') = V3.length (position m).
Proof.
  intros anc b p m delta Hp Hm.
  assert (Hp' : exists p', pivot (updateBody delta b) = Some p').
  { cbn [updateBody pivot]. rewrite Hp.
    destruct (speed b); cbn; eauto. }
  assert (Hm' : exists m', mesh (updateBody delta b) = Some m'
                           /\ position m' = position m).
  { cbn [updateBody mesh]. rewrite Hm.
    destruct (axialSpeed b); cbn; eauto. }
  destruct Hp' as (p' & Hp'). destruct Hm' as (m' & Hm' & Hpos).
  exists (getWorldPosition (p' :: anc) m'), p'.
  split; [unfold meshWorldPosition; now rewrite Hp', Hm'|].
  split; [exact Hp'|].
  unfold V3.distanceTo, V3.length. f_equal.
  rewrite (getWorldPosition_eq (p' :: anc) m').
  unfold getWorldPosition. cbn [localToWorld].
  rewrite distanceToSquared_localToWorld, distanceToSquared_localToParent.
  rewrite distanceToSquared_zero_r. now rewrite Hpos.
Qed.

Lemma updateBody_keeps_orbital_radius_witness :
  exists wp p',
    meshWorldPosition [] (updateBody 2 earthAtQuarterTurn) = Some wp /\
    pivot (updateBody 2 earthAtQuarterTurn) = Some p' /\
    V3.distanceTo wp (getWorldPosition [] p')
    = V3.length (mkVector3 38 0 0).
Proof.
  apply (updateBody_keeps_orbital_radius [] earthAtQuarterTurn
           (mkObject3D V3.zero (PI / 2)) (mkObject3D (mkVector3 38 0 0) 0) 2);
    reflexivity.
Defined.

(** A valid prediction lies, for every [timeAhead], on the circle around
    the pivot's world position whose radius is the absolute value of
    [mesh.position.x], at the pivot's height. *)
Theorem calculateFuturePosition_on_circle :
  forall (anc : list Object3D) (b : Body) (p m : Object3D) (w timeAhead : R),
    pivot b = Some p -> speed b = Some w -> mesh b = Some m ->
    V3.distanceTo (calculateFuturePosition anc (Some b) timeAhead)
                  (getWorldPosition anc p)
    = Rabs (vx (position m))
    /\
    vy (calculateFuturePosition anc (Some b) timeAhead)
    = vy (getWorldPosition anc p).
Proof.
  intros anc b p m w t Hp Hw Hm.
  unfold calculateFuturePosition. rewrite Hp, Hw, Hm.
  split; [|reflexivity].
  unfold V3.distanceTo, V3.distanceToSquared. cbn [vx vy vz].
  set (a := rotation_y p + w * t). set (d := vx (position m)).
  set (q := getWorldPosition anc p).
  replace ((vx q + cos a * d - vx q) * (vx q + cos a * d - vx q)
           + (vy q - vy q) * (vy q - vy q)
           + (vz q + sin a * d - vz q) * (vz q + sin a * d - vz q))
    with ((sin a * sin a + cos a * cos a) * (d * d)) by ring.
  rewrite sin_cos_sq, Rmult_1_l. apply sqrt_Rsqr_abs.
Qed.

Lemma calculateFuturePosition_on_circle_witness :
  V3.distanceTo (calculateFuturePosition [] (Some earthAtQuarterTurn) 10)
                (getWorldPosition [] (mkObject3D V3.zero (PI / 2)))
  = Rabs 38
  /\
  vy (calculateFuturePosition [] (Some earthAtQuarterTurn) 10)
  = vy (getWorldPosition [] (mkObject3D V3.zero (PI / 2))).
Proof.
  apply (calculateFuturePosition_on_circle [] earthAtQuarterTurn
           (mkObject3D V3.zero (PI / 2)) (mkObject3D (mkVector3 38 0 0) 0)
           0.3 10); reflexivity.
Defined.

(** For a body whose pivot hangs directly under the scene and whose mesh
    sits on the pivot's X axis (every planet), the prediction for
    [timeAhead] is the mirror image, in the plane through the pivot
    normal to Z, of where an update by [timeAhead] actually puts the
    mesh: the predicted orbit runs the other way round. *)
Theorem calculateFuturePosition_mirrors_update :
  forall (p : Object3D) (d theta w timeAhead : R)
         (ax : option R) (ms : option (list Body)),
    let b := mkBody (Some (mkObject3D (mkVector3 d 0 0) theta)) (Some p)
               (Some w) ax ms in
    exists wp,
      meshWorldPosition [] (updateBody timeAhead b) = Some wp /\
      calculateFuturePosition [] (Some b) timeAhead = mirrorZ (position p) wp.
Proof.
  intros p d theta w t ax ms b.
  assert (Hm : exists th', mesh (updateBody t b)
                           = Some (mkObject3D (mkVector3 d 0 0) th')).
  { unfold b. cbn [updateBody mesh axialSpeed]. destruct ax; cbn; eauto. }
  destruct Hm as (th' & Hm).
  eexists. split.
  - unfold meshWorldPosition. rewrite Hm. cbn [updateBody pivot b speed].
    cbn [addRotationY]. reflexivity.
  - unfold calculateFuturePosition, b. cbn [pivot speed mesh position vx].
    rewrite !getWorldPosition_eq. cbn [localToWorld].
    unfold mirrorZ, localToParent, applyEulerY, V3.add.
    cbn [vx vy vz position rotation_y].
    apply Vector3_eq; ring.
Qed.

(** For a top-level body (its pivot hangs directly under the scene, as
    for the Sun and every planet; the scene itself never moves),
    predicting after an update is predicting further ahead before it,
    numbers being reals: the predictor agrees with the way
    [updateCelestials] advances the pivot angle.  A moon's pivot hangs
    under a planet's mesh, which the same update moves, and is not
    covered. *)
Theorem calculateFuturePosition_after_update :
  forall (b : Body) (delta timeAhead : R),
    calculateFuturePosition [] (Some (updateBody delta b)) timeAhead
    = calculateFuturePosition [] (Some b) (delta + timeAhead).
Proof.
  intros [me pi sp ax ms] delta t.
  unfold calculateFuturePosition, updateBody.
  cbn [pivot speed mesh axialSpeed moons].
  destruct pi as [[pp pa]|], sp as [w|], me as [[mp ma]|];
    cbn [addRotationY]; try reflexivity;
    try (destruct ax; reflexivity).
  assert (E : forall th, calculateFuturePosition []
                (Some (mkBody (Some (mkObject3D mp th))
                         (Some (mkObject3D pp (pa + w * delta)))
                         (Some w) ax ms)) t
              = calculateFuturePosition []
                  (Some (mkBody (Some (mkObject3D mp ma))
                           (Some (mkObject3D pp pa)) (Some w) ax ms))
                  (delta + t)).
  { intros th. unfold calculateFuturePosition.
    cbn [pivot speed mesh position rotation_y].
    rewrite !getWorldPosition_eq. cbn [position].
    replace (pa + w * delta + w * t) with (pa + w * (delta + t)) by ring.
    reflexivity. }
  unfold calculateFuturePosition in E.
  cbn [pivot speed mesh position rotation_y] in E.
  destruct ax; cbn [addRotationY position rotation_y]; apply (E 0).
Qed.

(** For a moon the equation fails: an update by [PI / 0.3] takes Earth
    half way round, and the Moon's pivot with it, from [(38, 0, 0)] to
    [(-38, 0, 0)], while the prediction made before the update keeps the
    pivot where it was. *)
Lemma calculateFuturePosition_after_update_moon :
  let earth := createPlanet (Data.mk "Earth" 1.0 38 0.3 0.2 true false) in
  let delta := PI / 0.3 in
  forall (em ep em' ep' : Object3D),
    mesh earth = Some em -> pivot earth = Some ep ->
    mesh (updateBody delta earth) = Some em' ->
    pivot (updateBody delta earth) = Some ep' ->
    vx (calculateFuturePosition [em'; ep'] (Some (updateMoon delta earthMoon)) 0)
    <> vx (calculateFuturePosition [em; ep] (Some earthMoon) (delta + 0)).
Proof.
  intros earth delta em ep em' ep' Hm Hp Hm' Hp'.
  unfold earth, createPlanet in Hm, Hp, Hm', Hp'.
  cbn [mesh pivot updateBody addRotationY speed axialSpeed Data.distance
       Data.speed Data.axialSpeed position rotation_y] in Hm, Hp, Hm', Hp'.
  injection Hm as <-. injection Hp as <-.
  injection Hm' as <-. injection Hp' as <-.
  unfold calculateFuturePosition, updateMoon, earthMoon.
  cbn [pivot speed mesh axialSpeed addRotationY position rotation_y vx].
  rewrite !getWorldPosition_eq. cbn [localToWorld position].
  unfold localToParent, applyEulerY, V3.add, V3.zero.
  cbn [vx vy vz position rotation_y].
  replace (0 + 0.3 * delta) with PI by (unfold delta; lra).
  rewrite cos_PI, sin_PI, cos_0, sin_0.
  replace (0 + 1.5 * delta + 1.5 * 0) with (0 + 1.5 * (delta + 0)) by ring.
  lra.
Qed.

(** A body without a pivot (the Sun), without a numeric speed or without
    a mesh, and an absent body, are answered with the origin. *)
Theorem calculateFuturePosition_invalid_is_origin :
  forall (anc : list Object3D) (timeAhead : R),
    calculateFuturePosition anc None timeAhead = V3.zero /\
    forall b : Body,
      pivot b = None \/ speed b = None \/ mesh b = None ->
      calculateFuturePosition anc (Some b) timeAhead = V3.zero.
Proof.
  intros anc t. split; [reflexivity|].
  intros b [H|[H|H]]; unfold calculateFuturePosition; rewrite H;
    destruct (pivot b), (speed b); reflexivity.
Qed.

Lemma calculateFuturePosition_invalid_is_origin_witness :
  calculateFuturePosition [] (Some createSun) 30 = V3.zero.
Proof.
  apply (proj2 (calculateFuturePosition_invalid_is_origin [] 30) createSun).
  left. reflexivity.
Defined.



(** ** The world built by simulationObjects.js *)

Lemma created_nth (data : list Data.t) (i : nat) :
  nth_error (createSun :: createPlanets data) i
  = match i with
    | O => Some createSun
    | S j => option_map createPlanet (nth_error data j)
    end.
Proof.
  destruct i; [reflexivity|]. cbn [nth_error]. unfold createPlanets.
  apply nth_error_map.
Qed.

(** The created world is two levels deep at most. *)
Lemma created_world_depth (data : list Data.t) (i j k : nat)
  (rest : list nat) :
  descendantAt (i :: j :: k :: rest) (createSun :: createPlanets data) = None.
Proof.
  cbn [descendantAt]. rewrite created_nth.
  destruct i as [|i]; [reflexivity|].
  destruct (nth_error data i) as [d|]; [|reflexivity].
  cbn [option_map createPlanet moons].
  destruct (Data.hasMoon d).
  - destruct j as [|[|j]]; reflexivity.
  - destruct j; reflexivity.
Qed.

(** In the world [createSun] and [createPlanets] build from any table of
    planets, an unpaused [updateCelestials] advances every body at every
    nesting depth: the Sun, the planets and the moon. *)
Theorem created_world_fully_advanced :
  forall (data : list Data.t) (delta : R) (path : list nat) (b : Body),
    descendantAt path (createSun :: createPlanets data) = Some b ->
    exists b',
      descendantAt path
        (updateCelestials (createSun :: createPlanets data) delta false)
        = Some b' /\
      advancedBy delta b b'.
Proof.
  intros data delta path b Hb.
  rewrite (descendantAt_updateCelestials _ delta path b Hb).
  eexists. split; [reflexivity|].
  destruct path as [|i [|j [|k rest]]].
  - discriminate.
  - apply updateBody_advanced.
  - apply updateMoon_advanced.
  - rewrite created_world_depth in Hb. discriminate.
Qed.

Lemma created_world_fully_advanced_witness :
  exists b',
    descendantAt [3%nat; 0%nat]
      (updateCelestials (createSun :: createPlanets planetData) 2 false)
      = Some b' /\
    advancedBy 2 earthMoon b'.
Proof.
  apply (created_world_fully_advanced planetData 2 [3%nat; 0%nat] earthMoon).
  reflexivity.
Defined.

(** The orbit of a created planet in closed form.  After unpaused
    updates over the time steps [deltas], the planet built from a row
    with distance [d] and speed [w] is at [(d cos(wT), 0, -d sin(wT))],
    [T] the elapsed time, while its prediction for [timeAhead] is
    [(d cos(w(T + timeAhead)), 0, +d sin(w(T + timeAhead)))]. *)
Theorem created_planet_orbit :
  forall (data : list Data.t) (deltas : list R) (i : nat) (row : Data.t)
         (timeAhead : R),
    nth_error data i = Some row ->
    exists b,
      nth_error (updateCelestialsSeq deltas (createPlanets data)) i = Some b /\
      meshWorldPosition [] b
      = Some (mkVector3
                (cos (Data.speed row * elapsed deltas) * Data.distance row)
                0
                (- sin (Data.speed row * elapsed deltas) * Data.distance row))
      /\
      calculateFuturePosition [] (Some b) timeAhead
      = mkVector3
          (cos (Data.speed row * (elapsed deltas + timeAhead))
           * Data.distance row)
          0
          (sin (Data.speed row * (elapsed deltas + timeAhead))
           * Data.distance row).
Proof.
  intros data deltas i row t Hrow.
  exists (updateBody (elapsed deltas) (createPlanet row)).
  split.
  { rewrite updateCelestialsSeq_elapsed. unfold updateCelestials, createPlanets.
    rewrite !nth_error_map, Hrow. reflexivity. }
  split.
  - unfold meshWorldPosition, updateBody, createPlanet.
    cbn [pivot mesh speed axialSpeed addRotationY position rotation_y].
    f_equal. rewrite getWorldPosition_eq. cbn [localToWorld position].
    unfold localToParent, applyEulerY, V3.add, V3.zero.
    cbn [vx vy vz position rotation_y]. rewrite Rplus_0_l.
    apply Vector3_eq; ring.
  - unfold calculateFuturePosition, updateBody, createPlanet.
    cbn [pivot mesh speed axialSpeed addRotationY position rotation_y vx].
    rewrite getWorldPosition_eq. cbn [localToWorld position V3.zero vx vy vz].
    replace (0 + Data.speed row * elapsed deltas + Data.speed row * t)
      with (Data.speed row * (elapsed deltas + t)) by ring.
    apply Vector3_eq; ring.
Qed.

Lemma created_planet_orbit_witness :
  exists b,
    nth_error (updateCelestialsSeq [1; 2] (createPlanets planetData)) 3
    = Some b /\
    meshWorldPosition [] b
    = Some (mkVector3 (cos (0.2 * elapsed [1; 2]) * 55) 0
                      (- sin (0.2 * elapsed [1; 2]) * 55))
    /\
    calculateFuturePosition [] (Some b) 10
    = mkVector3 (cos (0.2 * (elapsed [1; 2] + 10)) * 55) 0
                (sin (0.2 * (elapsed [1; 2] + 10)) * 55).
Proof.
  apply (created_planet_orbit planetData [1; 2] 3
           (Data.mk "Mars" 0.53 55 0.2 0.18 false false) 10).
  reflexivity.
Defined.

(** ** updateSpacecraft: further properties *)

Lemma multiplyScalar_zero (k : R) : V3.multiplyScalar V3.zero k = V3.zero.
Proof.
  unfold V3.multiplyScalar, V3.zero. cbn [vx vy vz]. apply Vector3_eq; ring.
Qed.

Lemma add_zero_r (v : Vector3) : V3.add v V3.zero = v.
Proof.
  destruct v as [a b c]. unfold V3.add, V3.zero. cbn [vx vy vz].
  apply Vector3_eq; ring.
Qed.

Lemma limited_zero (m : R) : limited V3.zero m = V3.zero.
Proof.
  unfold limited.
  destruct (Rgt_dec (V3.lengthSq V3.zero) (m * m)) as [H|_]; [|reflexivity].
  unfold V3.lengthSq, V3.zero in H. cbn [vx vy vz] in H. nra.
Qed.

Lemma updateSpacecraft_rest (sc : Spacecraft) (inputState : InputState)
  (delta : R) (s : Scratch) :
  velocity sc = V3.zero -> thrust inputState = false ->
  exists sc',
    fst (updateSpacecraft (Some sc) inputState delta s) = Some sc' /\
    velocity sc' = V3.zero /\
    sm_position (sc_mesh sc') = sm_position (sc_mesh sc).
Proof.
  intros Hv Ht.
  destruct (updateSpacecraft_result sc inputState delta s)
    as (sc' & Hrun & Hvel & _ & Hmesh & _).
  assert (Hz : velocity sc' = V3.zero).
  { rewrite Hvel. unfold draggedVelocity. rewrite Ht, Hv.
    now rewrite multiplyScalar_zero, limited_zero. }
  exists sc'. repeat split; [exact Hrun | exact Hz |].
  rewrite Hmesh, Hz. cbn [sm_position].
  now rewrite multiplyScalar_zero, add_zero_r.
Qed.

(** No phantom drift: a craft at rest that is never given thrust stays at
    rest and in place over any sequence of steps, whatever the turn
    flags, the time steps and the constants of the craft. *)
Theorem updateSpacecraft_no_phantom_drift :
  forall (steps : list (InputState * R)) (sc : Spacecraft) (s : Scratch),
    velocity sc = V3.zero ->
    Forall (fun st => thrust (fst st) = false) steps ->
    exists sc',
      fst (updateSpacecraftSeq steps (Some sc) s) = Some sc' /\
      velocity sc' = V3.zero /\
      sm_position (sc_mesh sc') = sm_position (sc_mesh sc).
Proof.
  induction steps as [|[inputState delta] rest IH]; intros sc s Hv Hall.
  - exists sc. repeat split; [exact Hv].
  - inversion Hall as [|st l Hst Hrest]; subst. cbn [fst] in Hst.
    destruct (updateSpacecraft_rest sc inputState delta s Hv Hst)
      as (sc1 & Hrun & Hv1 & Hp1).
    cbn [updateSpacecraftSeq]. unfold bind.
    destruct (updateSpacecraft (Some sc) inputState delta s) as [r s1].
    cbn [fst] in Hrun. subst r.
    destruct (IH sc1 s1 Hv1 Hrest) as (sc' & Hrun' & Hv' & Hp').
    exists sc'. repeat split; [exact Hrun' | exact Hv' | congruence].
Qed.

Lemma updateSpacecraft_no_phantom_drift_witness :
  let sc := mkSpacecraft (mkShipMesh (mkVector3 1 2 3) Quat.identity)
              V3.zero 2.5 7.0 0.98 30.0 in
  exists sc',
    fst (updateSpacecraftSeq
           [(mkInputState false true false, 1);
            (mkInputState false false true, 0.5)]
           (Some sc) (mkScratch V3.zero V3.zero V3.zero)) = Some sc' /\
    velocity sc' = V3.zero /\
    sm_position (sc_mesh sc') = sm_position (sc_mesh sc).
Proof.
  intros sc.
  apply (updateSpacecraft_no_phantom_drift _ sc).
  - reflexivity.
  - repeat constructor.
Defined.









(** ** updateTrajectoryLine: further properties *)

Lemma popWhileLonger_negative (maxPoints : R) :
  maxPoints < 0 ->
  forall (fuel : nat) (pts : list Vector3),
    popWhileLonger fuel pts maxPoints = None.
Proof.
  intros Hneg. induction fuel as [|fuel IH]; intros pts;
    cbn [popWhileLonger];
    pose proof (pos_INR (List.length pts));
    destruct (Rgt_dec (INR (List.length pts)) maxPoints); try lra;
    [reflexivity | apply IH].
Qed.

Lemma moved_test (sc : Spacecraft) (points : list Vector3) :
  moved sc points ->
  match points with
  | [] => true
  | newest :: _ => negb (V3.equals newest (sm_position (sc_mesh sc)))
  end = true.
Proof.
  destruct points as [|newest rest]; [reflexivity|]. cbn [moved]. intros Hne.
  destruct (V3.equals newest (sm_position (sc_mesh sc))) eqn:E; [|reflexivity].
  apply equals_true_iff in E. contradiction.
Qed.

(** With a negative [maxPoints] a call that has a point to add never
    returns: the truncation loop empties the array and keeps running,
    however much fuel it is given. *)
Theorem updateTrajectoryLine_negative_max_diverges :
  forall (fuel : nat) (sc : Spacecraft) (line : Line)
         (points : list Vector3) (maxPoints : R),
    maxPoints < 0 ->
    moved sc points ->
    updateTrajectoryLine fuel (Some sc) (Some line) (Some points) maxPoints
    = None.
Proof.
  intros fuel sc line points maxPoints Hneg Hmoved.
  unfold updateTrajectoryLine. rewrite (moved_test sc points Hmoved).
  now rewrite popWhileLonger_negative.
Qed.

Lemma updateTrajectoryLine_negative_max_diverges_witness :
  updateTrajectoryLine 1000
    (Some (mkSpacecraft (mkShipMesh (mkVector3 1 0 0) Quat.identity)
             V3.zero 2.5 7.0 0.98 30.0))
    (Some (mkLine [])) (Some []) (-1)
  = None.
Proof.
  apply updateTrajectoryLine_negative_max_diverges.
  - lra.
  - exact I.
Defined.

(** With enough fuel the loop keeps the longest prefix that fits. *)
Lemma popWhileLonger_firstn (maxPoints : R) :
  0 <= maxPoints ->
  forall (fuel : nat) (pts : list Vector3),
    (List.length pts <= fuel)%nat ->
    exists n : nat,
      popWhileLonger fuel pts maxPoints = Some (firstn n pts) /\
      (n <= List.length pts)%nat /\
      INR n <= maxPoints /\
      (n = List.length pts \/ maxPoints < INR n + 1).
Proof.
  intros Hmax. induction fuel as [|fuel IH]; intros pts Hlen;
    cbn [popWhileLonger];
    destruct (Rgt_dec (INR (List.length pts)) maxPoints) as [Hgt|Hle].
  - assert (List.length pts = 0%nat) as E by lia.
    rewrite E in Hgt. cbn in Hgt. lra.
  - exists (List.length pts). rewrite firstn_all.
    repeat split; [lia | lra | now left].
  - destruct pts as [|v rest]; [cbn in Hgt; lra|].
    assert (Hl : List.length (removelast (v :: rest)) = List.length rest)
      by apply length_removelast_cons.
    destruct (IH (removelast (v :: rest))) as (n & Hrun & Hn & Hb & Hmaxi).
    + rewrite Hl. cbn [List.length] in Hlen. lia.
    + rewrite Hl in Hn, Hmaxi. exists n. rewrite Hrun.
      rewrite firstn_removelast by (cbn [List.length]; lia).
      repeat split; [cbn [List.length]; lia | exact Hb |].
      right. destruct Hmaxi as [->|H]; [|exact H].
      cbn [List.length] in Hgt. rewrite S_INR in Hgt. lra.
  - exists (List.length pts). rewrite firstn_all.
    repeat split; [lia | lra | now left].
Qed.

(** A call that has a point to add puts it in front and then drops only
    the oldest entries, and only as many as needed to fit [maxPoints];
    the line is rebuilt from the result, and when [maxPoints] is at
    least 1 the newest entry is the craft's position. *)
Theorem updateTrajectoryLine_keeps_newest_prefix :
  forall (fuel : nat) (sc : Spacecraft) (line : Line)
         (points : list Vector3) (maxPoints : R),
    0 <= maxPoints ->
    (S (List.length points) <= fuel)%nat ->
    moved sc points ->
    exists n : nat,
      let kept := firstn n (sm_position (sc_mesh sc) :: points) in
      updateTrajectoryLine fuel (Some sc) (Some line) (Some points) maxPoints
      = Some (Some (mkLine kept), Some kept) /\
      INR n <= maxPoints /\
      (n = S (List.length points) \/ maxPoints < INR n + 1) /\
      (1 <= maxPoints -> hd_error kept = Some (sm_position (sc_mesh sc))).
Proof.
  intros fuel sc line points maxPoints Hmax Hfuel Hmoved.
  destruct (popWhileLonger_firstn maxPoints Hmax fuel
              (sm_position (sc_mesh sc) :: points) Hfuel)
    as (n & Hrun & Hn & Hb & Hmaxi).
  exists n. cbn zeta. unfold updateTrajectoryLine.
  rewrite (moved_test sc points Hmoved), Hrun.
  repeat split; [exact Hb | exact Hmaxi |].
  intros H1. destruct n as [|n]; [|reflexivity].
  destruct Hmaxi as [E|H]; [discriminate | cbn in H; lra].
Qed.

Lemma updateTrajectoryLine_keeps_newest_prefix_witness :
  let sc := mkSpacecraft (mkShipMesh (mkVector3 9 0 0) Quat.identity)
              V3.zero 2.5 7.0 0.98 30.0 in
  let points := [mkVector3 3 0 0; mkVector3 2 0 0; mkVector3 1 0 0] in
  exists n : nat,
    let kept := firstn n (sm_position (sc_mesh sc) :: points) in
    updateTrajectoryLine 4 (Some sc) (Some (mkLine points)) (Some points) 2
    = Some (Some (mkLine kept), Some kept) /\
    INR n <= 2 /\
    (n = S (List.length points) \/ 2 < INR n + 1) /\
    (1 <= 2 -> hd_error kept = Some (sm_position (sc_mesh sc))).
Proof.
  intros sc points.
  apply (updateTrajectoryLine_keeps_newest_prefix 4 sc (mkLine points) points 2).
  - lra.
  - simpl. lia.
  - simpl. intros [= H]. lra.
Defined.

(** The same call, seen from its newest entry only. *)
Lemma updateTrajectoryLine_moved_head (fuel : nat) (sc : Spacecraft)
  (line : Line) (points : list Vector3) (maxPoints : R) :
  1 <= maxPoints ->
  (S (List.length points) <= fuel)%nat ->
  moved sc points ->
  exists line' kept,
    updateTrajectoryLine fuel (Some sc) (Some line) (Some points) maxPoints
    = Some (line', Some kept) /\
    hd_error kept = Some (sm_position (sc_mesh sc)).
Proof.
  intros Hmax Hfuel Hmoved.
  destruct (popWhileLonger_firstn maxPoints ltac:(lra) fuel
              (sm_position (sc_mesh sc) :: points) Hfuel)
    as (n & Hrun & _ & _ & Hmaxi).
  unfold updateTrajectoryLine. rewrite (moved_test sc points Hmoved), Hrun.
  eexists _, _. split; [reflexivity|].
  destruct n as [|n]; [|reflexivity].
  destruct Hmaxi as [E|H]; [discriminate | cbn in H; lra].
Qed.

Lemma noRepeat_removelast (pts : list Vector3) :
  noRepeat pts -> noRepeat (removelast pts).
Proof.
  induction pts as [|a [|b rest] IH]; intros H; try exact I.
  change (removelast (a :: b :: rest)) with (a :: removelast (b :: rest)).
  destruct H as [Hab Hrest]. specialize (IH Hrest).
  destruct rest as [|c rest']; [exact I|].
  change (removelast (b :: c :: rest')) with (b :: removelast (c :: rest')) in *.
  split; [exact Hab | exact IH].
Qed.

Lemma popWhileLonger_noRepeat (maxPoints : R) :
  forall (fuel : nat) (pts pts' : list Vector3),
    noRepeat pts ->
    popWhileLonger fuel pts maxPoints = Some pts' ->
    noRepeat pts'.
Proof.
  induction fuel as [|fuel IH]; intros pts pts' Hn; cbn [popWhileLonger];
    destruct (Rgt_dec (INR (List.length pts)) maxPoints); intros H;
    try discriminate; try (injection H as <-; exact Hn).
  apply (IH (removelast pts)); [now apply noRepeat_removelast | exact H].
Qed.

(** A history in which no two neighbours are equal stays that way over
    every call that returns: stationary frames never add an entry. *)
Theorem updateTrajectoryLine_no_neighbour_repeats :
  forall (fuel : nat) (spacecraft : option Spacecraft)
         (trajectoryLine : option Line) (points : list Vector3)
         (maxPoints : R) (line' : option Line) (points' : list Vector3),
    noRepeat points ->
    updateTrajectoryLine fuel spacecraft trajectoryLine (Some points) maxPoints
    = Some (line', Some points') ->
    noRepeat points'.
Proof.
  intros fuel [sc|] [line|] points maxPoints line' points' Hn;
    unfold updateTrajectoryLine;
    try (intros [= _ <-]; exact Hn).
  destruct points as [|newest rest].
  - destruct (popWhileLonger fuel [sm_position (sc_mesh sc)] maxPoints)
      as [pts|] eqn:E; [|discriminate].
    intros [= _ <-].
    apply (popWhileLonger_noRepeat maxPoints fuel
             [sm_position (sc_mesh sc)] pts); [exact I | exact E].
  - destruct (V3.equals newest (sm_position (sc_mesh sc))) eqn:Eq;
      cbn [negb].
    + intros [= _ <-]. exact Hn.
    + destruct (popWhileLonger fuel (sm_position (sc_mesh sc) :: newest :: rest)
                  maxPoints) as [pts|] eqn:E; [|discriminate].
      intros [= _ <-].
      apply (popWhileLonger_noRepeat maxPoints fuel
               (sm_position (sc_mesh sc) :: newest :: rest) pts);
        [|exact E].
      split; [|exact Hn].
      intros Heq. rewrite <- Heq, equals_refl in Eq. discriminate.
Qed.

Lemma updateTrajectoryLine_no_neighbour_repeats_witness :
  noRepeat [mkVector3 9 0 0; mkVector3 3 0 0].
Proof.
  apply (updateTrajectoryLine_no_neighbour_repeats 1
           (Some (mkSpacecraft (mkShipMesh (mkVector3 9 0 0) Quat.identity)
                    V3.zero 2.5 7.0 0.98 30.0))
           (Some (mkLine [])) [mkVector3 3 0 0; mkVector3 2 0 0] 2
           (Some (mkLine [mkVector3 9 0 0; mkVector3 3 0 0]))).
  - simpl. split; [|exact I]. intros [= H]. lra.
  - unfold updateTrajectoryLine.
    assert (E : V3.equals (mkVector3 3 0 0)
                  (sm_position (sc_mesh
                     (mkSpacecraft (mkShipMesh (mkVector3 9 0 0) Quat.identity)
                        V3.zero 2.5 7.0 0.98 30.0))) = false).
    { destruct (V3.equals _ _) eqn:E; [|reflexivity].
      apply equals_true_iff in E. injection E as H. lra. }
    rewrite E. cbn [negb popWhileLonger List.length removelast sc_mesh
                    sm_position].
    destruct (Rgt_dec (INR 3) 2) as [_|N]; [|simpl in N; lra].
    destruct (Rgt_dec (INR 2) 2) as [Y|_]; [simpl in Y; lra|].
    reflexivity.
Defined.

(** ** updateAiPilot and objectRadius: further properties *)

(** The autopilot's output depends on the craft and the target only (the
    prior input record and the time step are ignored), and in every case
    it never sets both turn flags, nor [thrust] together with a turn. *)
Theorem updateAiPilot_exclusive_outputs :
  forall (B : R) (spacecraft : option Spacecraft)
         (targetObject : option TargetMesh) (isAiActive : bool) (s : Scratch)
         (inputState1 inputState2 : InputState) (delta1 delta2 : R),
    updateAiPilot B spacecraft targetObject inputState1 delta1 isAiActive s
    = updateAiPilot B spacecraft targetObject inputState2 delta2 isAiActive s
    /\
    let r := fst (updateAiPilot B spacecraft targetObject inputState1 delta1
                    isAiActive s) in
    turnLeft r && turnRight r = false /\
    thrust r && (turnLeft r || turnRight r) = false.
Proof.
  intros B [sc|] [target|] [|] s i1 i2 d1 d2; split; try reflexivity;
    try (cbn; split; reflexivity).
  cbn zeta. rewrite updateAiPilot_engaged.
  destruct (Rgt_dec _ (degToRad 5)).
  - destruct (Rgt_dec _ 0); split; reflexivity.
  - destruct (jsGt _ _); split; reflexivity.
Qed.

(** [objectRadius] always yields a number, which is the bounding radius
    whenever there is one, whatever the scale; it is [NaN] exactly when
    there is neither a bounding radius nor a scale. *)
Theorem objectRadius_result :
  forall (B : R) (obj : option TargetMesh),
    objectRadius B obj <> Undefined /\
    (forall r : R,
        boundingRadius obj = Number (Num r) ->
        objectRadius B obj = Number (Num r)) /\
    (objectRadius B obj = Number NaN <->
     boundingRadius obj = Undefined /\ scaleX obj = Undefined).
Proof.
  intros B obj. rewrite objectRadius_last_resort_unreachable.
  assert (Hb : boundingRadius obj = Undefined
               \/ exists r, boundingRadius obj = Number (Num r)).
  { unfold boundingRadius. destruct obj as [o|]; [|now left].
    destruct (geometry o) as [g|]; [|now left].
    destruct (boundingSphere g); [right; eauto | now left]. }
  assert (Hs : scaleX obj = Undefined
               \/ exists x, scaleX obj = Number (Num x)).
  { unfold scaleX. destruct obj as [o|]; [|now left].
    destruct (scale o); [right; eauto | now left]. }
  destruct Hb as [Hb|(r & Hb)]; rewrite Hb; cbn [nullish].
  - destruct Hs as [Hs|(x & Hs)]; rewrite Hs; cbn.
    + repeat split; try discriminate; auto.
    + repeat split; try discriminate. intros [_ H]. discriminate.
  - repeat split; try discriminate.
    + intros r' [= ->]. reflexivity.
    + intros [H _]. discriminate.
Qed.

(** [applyQuaternion] with a unit quaternion keeps lengths. *)
Lemma lengthSq_applyTo (v : Vector3) (q : Quaternion) :
  normSq q = 1 -> V3.lengthSq (Quat.applyTo v q) = V3.lengthSq v.
Proof.
  intros Hq.
  assert (E : V3.lengthSq (Quat.applyTo v q)
              = V3.lengthSq v
                + (normSq q - 1)
                  * V3.lengthSq
                      (mkVector3 (2 * (qy q * vz v - qz q * vy v))
                                 (2 * (qz q * vx v - qx q * vz v))
                                 (2 * (qx q * vy v - qy q * vx v)))).
  { unfold V3.lengthSq, Quat.applyTo, normSq. cbn [vx vy vz]. ring. }
  rewrite E, Hq. ring.
Qed.

Lemma lengthSq_normalize_le (u : Vector3) : V3.lengthSq (V3.normalize u) <= 1.
Proof.
  unfold V3.normalize, V3.divideScalar. rewrite lengthSq_multiplyScalar.
  destruct (Req_dec_T (V3.length u) 0) as [E|NE].
  - unfold V3.length in E. apply sqrt_eq_0 in E; [|apply lengthSq_nonneg].
    rewrite E. lra.
  - rewrite <- length_sq.
    replace (1 / V3.length u * (1 / V3.length u) * (V3.length u * V3.length u))
      with 1 by (field; exact NE).
    lra.
Qed.

Lemma lengthSq_crossVectors_le (a b : Vector3) :
  V3.lengthSq (V3.crossVectors a b) <= V3.lengthSq a * V3.lengthSq b.
Proof.
  replace (V3.lengthSq (V3.crossVectors a b))
    with (V3.lengthSq a * V3.lengthSq b - V3.dot a b * V3.dot a b)
    by (unfold V3.lengthSq, V3.crossVectors, V3.dot; cbn [vx vy vz]; ring).
  pose proof (Rle_0_sqr (V3.dot a b)) as H. unfold Rsqr in H. lra.
Qed.

(** The distance between two points differs from the length of the first
    by at most the length of the second. *)
Lemma distanceTo_near_length (p c : Vector3) :
  V3.length p - V3.length c <= V3.distanceTo p c <= V3.length p + V3.length c.
Proof.
  pose proof (length_nonneg p) as HP. pose proof (length_nonneg c) as HC.
  assert (HD : 0 <= V3.distanceTo p c) by (unfold V3.distanceTo; apply sqrt_pos).
  assert (HDD : V3.distanceTo p c * V3.distanceTo p c
                = V3.lengthSq p + V3.lengthSq c - 2 * V3.dot p c).
  { unfold V3.distanceTo. rewrite sqrt_sqrt.
    - unfold V3.distanceToSquared, V3.lengthSq, V3.dot. cbn zeta. ring.
    - replace (V3.distanceToSquared p c)
        with (V3.lengthSq (V3.subVectors p c))
        by (unfold V3.distanceToSquared, V3.lengthSq, V3.subVectors;
            cbn [vx vy vz]; ring).
      apply lengthSq_nonneg. }
  assert (HCS : V3.dot p c * V3.dot p c <= V3.lengthSq p * V3.lengthSq c).
  { pose proof (lengthSq_crossVectors_le p c) as H.
    pose proof (lengthSq_nonneg (V3.crossVectors p c)) as H0.
    replace (V3.lengthSq (V3.crossVectors p c))
      with (V3.lengthSq p * V3.lengthSq c - V3.dot p c * V3.dot p c) in H0
      by (unfold V3.lengthSq, V3.crossVectors, V3.dot; cbn [vx vy vz]; ring).
    lra. }
  rewrite <- (length_sq p), <- (length_sq c) in HDD, HCS.
  set (P := V3.length p) in *. set (C := V3.length c) in *.
  set (D := V3.distanceTo p c) in *. set (x := V3.dot p c) in *.
  assert (Hx : - (P * C) <= x <= P * C).
  { assert (0 <= P * C) by nra. split; nra. }
  split.
  - destruct (Rle_lt_dec (P - C) 0) as [Hn|Hp]; [lra|]. nra.
  - nra.
Qed.

(** Facing the target with a unit orientation, the autopilot's thrust
    follows the craft's distance from the world origin, not its distance
    from the target: thrust is on when the craft is farther than twice
    the target radius plus 1 from the origin, and off when it is nearer
    than twice the radius minus 1. *)
Theorem updateAiPilot_thrust_follows_origin_distance :
  forall (B : R) (sc : Spacecraft) (target : TargetMesh)
         (inputState : InputState) (delta : R) (s : Scratch) (rad : R),
    normSq (sm_quaternion (sc_mesh sc)) = 1 ->
    ~ V3.angleTo
        (Quat.applyTo (V3.set 0 0 (-1)) (sm_quaternion (sc_mesh sc)))
        (V3.normalize (V3.subVectors (matrixWorldPosition target)
                                     (sm_position (sc_mesh sc))))
      > degToRad 5 ->
    objectRadius B (Some target) = Number (Num rad) ->
    let r := fst (updateAiPilot B (Some sc) (Some target) inputState delta
                    true s) in
    (V3.length (sm_position (sc_mesh sc)) > rad * 2 + 1 -> thrust r = true) /\
    (V3.length (sm_position (sc_mesh sc)) + 1 <= rad * 2 -> thrust r = false).
Proof.
  intros B sc target inputState delta s rad Hq Hface Hrad r.
  destruct (updateAiPilot_facing_branch B sc target inputState delta s rad
              Hface Hrad) as (_ & _ & Hthr).
  fold r in Hthr.
  set (fwd := Quat.applyTo (V3.set 0 0 (-1)) (sm_quaternion (sc_mesh sc))) in *.
  set (dir := V3.normalize (V3.subVectors (matrixWorldPosition target)
                              (sm_position (sc_mesh sc)))) in *.
  assert (Hc : V3.length (V3.crossVectors fwd dir) <= 1).
  { apply Rle_trans with (sqrt 1); [|rewrite sqrt_1; lra].
    unfold V3.length. apply sqrt_le_1_alt.
    eapply Rle_trans; [apply lengthSq_crossVectors_le|].
    unfold fwd. rewrite (lengthSq_applyTo _ _ Hq).
    pose proof (lengthSq_normalize_le
                  (V3.subVectors (matrixWorldPosition target)
                     (sm_position (sc_mesh sc)))) as Hn.
    fold dir in Hn. pose proof (lengthSq_nonneg dir).
    unfold V3.lengthSq at 1, V3.set. cbn [vx vy vz]. lra. }
  pose proof (distanceTo_near_length (sm_position (sc_mesh sc))
                (V3.crossVectors fwd dir)) as [Hlo Hhi].
  split.
  - intros Hfar. apply Hthr. lra.
  - intros Hnear. destruct (thrust r) eqn:E; [|reflexivity].
    assert (H : V3.distanceTo (sm_position (sc_mesh sc))
                  (V3.crossVectors fwd dir) > rad * 2) by now apply Hthr.
    lra.
Qed.

Lemma updateAiPilot_thrust_follows_origin_distance_witness :
  thrust (fst (updateAiPilot 1 (Some craftAtOrigin) (Some targetAhead)
                 (mkInputState true true true) 0.016 true
                 (mkScratch V3.zero V3.zero V3.zero))) = false.
Proof.
  refine (proj2 (updateAiPilot_thrust_follows_origin_distance 1 craftAtOrigin
                   targetAhead (mkInputState true true true) 0.016
                   (mkScratch V3.zero V3.zero V3.zero) 1 _ _ _) _).
  - unfold normSq, craftAtOrigin, Quat.identity. simpl. lra.
  - rewrite craftAtOrigin_forward, targetAhead_direction, angleTo_same_unit_z.
    pose proof PI_RGT_0. unfold degToRad. lra.
  - reflexivity.
  - replace (V3.length (sm_position (sc_mesh craftAtOrigin))) with 0.
    + lra.
    + symmetry. apply length_of_square; [lra|].
      unfold V3.lengthSq, craftAtOrigin, V3.zero. simpl. lra.
Defined.

Lemma objectRadius_result_witness :
  objectRadius 1
    (Some (mkTargetMesh (Some (mkBufferGeometry (Some (mkSphere V3.zero 4))))
             (Some (mkVector3 2 2 2)) V3.zero))
  = Number (Num 4).
Proof.
  apply (proj1 (proj2 (objectRadius_result 1 _))). reflexivity.
Defined.

(** ** uiController.js: the listeners *)


Lemma handleEvent_flag (e : UiEvent) (ui : UiState) :
  isToggle e = false ->
  isAiPilotActive (handleEvent e ui) = isAiPilotActive ui.
Proof.
  intros Ht. destruct e as [b|b|b|k|k|]; cbn [handleEvent];
    try (destruct (isAiPilotActive ui) eqn:E; cbn; congruence);
    try discriminate.
  destruct k; try discriminate;
    destruct (isAiPilotActive ui) eqn:E; cbn; congruence.
Qed.




Lemma handleEvents_flag (events : list UiEvent) :
  forall ui : UiState,
    noToggle events ->
    isAiPilotActive (handleEvents events ui) = isAiPilotActive ui.
Proof.
  unfold handleEvents, noToggle.
  induction events as [|e rest IH]; intros ui H; [reflexivity|].
  cbn [forallb] in H. apply andb_true_iff in H. destruct H as [He Hrest].
  cbn [fold_left]. rewrite IH by exact Hrest.
  apply handleEvent_flag. now destruct (isToggle e).
Qed.

(** ** app.js: the frame *)

Lemma updateAiPilot_inactive (B : R) (spacecraft : option Spacecraft)
  (targetObject : option TargetMesh) (inputState : InputState) (delta : R)
  (s : Scratch) :
  updateAiPilot B spacecraft targetObject inputState delta false s
  = (cleared, s).
Proof. reflexivity. Qed.

(** A frame on a bounded history returns, and this is what it leaves. *)
Lemma animate_result (B MAX : R) (fuel : nat) (isPaused : bool)
  (aiTargetObject : option TargetMesh) (delta : R) (ui : UiState)
  (w : World) (s : Scratch) :
  INR (List.length (shipTrajectoryPoints w)) <= MAX ->
  (1 <= fuel)%nat ->
  let ai := updateAiPilot B (w_spacecraft w) aiTargetObject
              (ui_inputState ui) delta (isAiPilotActive ui) s in
  let craft := updateSpacecraft (w_spacecraft w) (fst ai) delta (snd ai) in
  exists line' points',
    animate B MAX fuel isPaused aiTargetObject delta ui w s
    = (Some (mkUiState (fst ai) (isAiPilotActive ui),
             mkWorld (fst craft) line' points'
               (updateCelestials (celestialBodies_ w) delta isPaused)),
       snd craft) /\
    updateTrajectoryLine fuel (fst craft) (shipTrajectoryLine w)
      (Some (shipTrajectoryPoints w)) MAX
    = Some (line', Some points') /\
    INR (List.length points') <= MAX.
Proof.
  intros Hlen Hfuel ai craft. unfold animate, bind.
  fold ai. destruct ai as [inputState' s1] eqn:Eai. cbn [fst snd] in *.
  fold craft. destruct craft as [sc' s2] eqn:Ecraft. cbn [fst snd].
  destruct sc' as [sc'|].
  - destruct (shipTrajectoryLine w) as [line|].
    + destruct (updateTrajectoryLine_bounded fuel sc' line
                  (shipTrajectoryPoints w) MAX Hlen Hfuel)
        as (l1 & p1 & Hrun & Hb).
      rewrite Hrun. exists (Some l1), p1. repeat split. exact Hb.
    + cbn [updateTrajectoryLine]. eexists _, _. repeat split. exact Hlen.
  - cbn [updateTrajectoryLine]. eexists _, _. repeat split. exact Hlen.
Qed.

(** An invariant of the control state and the craft that the listeners
    keep (for the event runs allowed by [E]) and that one autopilot call
    followed by one craft step keeps, holds after any run of the
    application, which returns as long as the history starts bounded. *)
Lemma runApp_invariant (B MAX : R) (fuel : nat) (isPaused : bool)
  (Inv : UiState -> Spacecraft -> Prop) (E : list UiEvent -> Prop) :
  (forall ui sc events, Inv ui sc -> E events ->
     Inv (handleEvents events ui) sc) ->
  (forall ui sc tgt delta s, Inv ui sc ->
     let ai := updateAiPilot B (Some sc) tgt (ui_inputState ui) delta
                 (isAiPilotActive ui) s in
     exists sc',
       fst (updateSpacecraft (Some sc) (fst ai) delta (snd ai)) = Some sc' /\
       Inv (mkUiState (fst ai) (isAiPilotActive ui)) sc') ->
  (1 <= fuel)%nat ->
  forall (frames : list Frame) (ui : UiState) (sc : Spacecraft)
         (line : option Line) (points : list Vector3) (bodies : list Body)
         (s : Scratch),
    Inv ui sc ->
    INR (List.length points) <= MAX ->
    Forall (fun f => E (f_events f)) frames ->
    exists ui' w' sc' s',
      runApp B MAX fuel isPaused frames ui (mkWorld (Some sc) line points bodies) s
      = (Some (ui', w'), s') /\
      w_spacecraft w' = Some sc' /\
      Inv ui' sc'.
Proof.
  intros Hev Hstep Hfuel.
  induction frames as [|f rest IH]; intros ui sc line points bodies s HI Hlen HE.
  - eexists ui, _, sc, s. repeat split. exact HI.
  - inversion HE as [|f' l Hf Hrest]; subst.
    pose proof (Hev ui sc (f_events f) HI Hf) as HI1.
    destruct (Hstep (handleEvents (f_events f) ui) sc (f_aiTargetObject f)
                (f_delta f) s HI1) as (sc1 & Hsc1 & HI2).
    destruct (animate_result B MAX fuel isPaused (f_aiTargetObject f)
                (f_delta f) (handleEvents (f_events f) ui)
                (mkWorld (Some sc) line points bodies) s Hlen Hfuel)
      as (line' & points' & Hrun & _ & Hb).
    cbn [w_spacecraft] in Hrun.
    cbn [runApp]. unfold bind at 1. rewrite Hrun.
    destruct (updateSpacecraft (Some sc) _ (f_delta f) _) as [r s2] eqn:Er.
    cbn [fst snd] in Hsc1 |- *. subst r.
    apply IH; assumption.
Qed.

(** With the autopilot off, a frame clears the shared input record
    before the craft is stepped, so the frame is the frame of the cleared
    record whatever the listeners have put in it; hence, as long as the
    autopilot is not toggled on, a craft at rest stays at rest where it
    is over any run of frames and of mouse and keyboard events. *)
Theorem manual_control_never_moves_craft :
  (forall (B MAX : R) (fuel : nat) (isPaused : bool)
          (aiTargetObject : option TargetMesh) (delta : R)
          (inputState : InputState) (w : World) (s : Scratch),
      animate B MAX fuel isPaused aiTargetObject delta
        (mkUiState inputState false) w s
      = animate B MAX fuel isPaused aiTargetObject delta
          (mkUiState cleared false) w s)
  /\
  (forall (B MAX : R) (fuel : nat) (isPaused : bool) (frames : list Frame)
          (inputState : InputState) (sc : Spacecraft) (line : option Line)
          (points : list Vector3) (bodies : list Body) (s : Scratch),
      velocity sc = V3.zero ->
      INR (List.length points) <= MAX ->
      (1 <= fuel)%nat ->
      Forall (fun f => noToggle (f_events f)) frames ->
      exists ui' w' sc' s',
        runApp B MAX fuel isPaused frames (mkUiState inputState false)
          (mkWorld (Some sc) line points bodies) s
        = (Some (ui', w'), s') /\
        w_spacecraft w' = Some sc' /\
        isAiPilotActive ui' = false /\
        velocity sc' = V3.zero /\
        sm_position (sc_mesh sc') = sm_position (sc_mesh sc)).
Proof.
  split.
  - intros. unfold animate, bind.
    cbn [ui_inputState isAiPilotActive]. now rewrite !updateAiPilot_inactive.
  - intros B MAX fuel isPaused frames inputState sc line points bodies s
      Hv Hlen Hfuel Hev.
    destruct (runApp_invariant B MAX fuel isPaused
                (fun ui c => isAiPilotActive ui = false /\
                             velocity c = V3.zero /\
                             sm_position (sc_mesh c) = sm_position (sc_mesh sc))
                noToggle) with (frames := frames)
        (ui := mkUiState inputState false) (sc := sc) (line := line)
        (points := points) (bodies := bodies) (s := s)
      as (ui' & w' & sc' & s' & Hrun & Hw & Ha & Hv' & Hp'); try assumption.
    + intros ui c events (Ha & Hc) Hn. split; [|exact Hc].
      now rewrite handleEvents_flag.
    + intros ui c tgt delta s0 (Ha & Hcv & Hcp). rewrite Ha.
      rewrite updateAiPilot_inactive. cbn [fst snd].
      destruct (updateSpacecraft_rest c cleared delta s0 Hcv eq_refl)
        as (c' & Hrun & Hv' & Hp').
      exists c'. split; [exact Hrun|]. repeat split; [exact Hv' | congruence].
    + repeat split. exact Hv.
    + exists ui', w', sc', s'. repeat split; assumption.
Qed.

Lemma manual_control_never_moves_craft_witness :
  exists ui' w' sc' s',
    runApp 1 500 1 false
      [mkFrame [keydown key_w; mousedown turnLeftBtn] None 0.016;
       mkFrame [keyup key_w; keydown key_d] (Some targetAhead) 0.016]
      (mkUiState cleared false)
      (mkWorld (Some (createSpacecraft (mkVector3 38 2 5)))
         (Some (initTrajectoryLine (Some (createSpacecraft (mkVector3 38 2 5)))))
         [] (createSun :: createPlanets planetData))
      (mkScratch V3.zero V3.zero V3.zero)
    = (Some (ui', w'), s') /\
    w_spacecraft w' = Some sc' /\
    isAiPilotActive ui' = false /\
    velocity sc' = V3.zero /\
    sm_position (sc_mesh sc')
    = sm_position (sc_mesh (createSpacecraft (mkVector3 38 2 5))).
Proof.
  apply (proj2 manual_control_never_moves_craft).
  - reflexivity.
  - simpl. lra.
  - lia.
  - repeat constructor.
Defined.

(** After a frame (line present, [MAX_TRAJECTORY_POINTS] at least 1) the
    newest trajectory point is the position the craft has after this
    frame's step: the recorder runs after the craft has moved. *)
Theorem animate_records_new_position :
  forall (B MAX : R) (fuel : nat) (isPaused : bool)
         (aiTargetObject : option TargetMesh) (delta : R) (ui : UiState)
         (sc : Spacecraft) (line : Line) (points : list Vector3)
         (bodies : list Body) (s : Scratch),
    1 <= MAX ->
    INR (List.length points) <= MAX ->
    (S (List.length points) <= fuel)%nat ->
    exists ui' w' sc' s',
      animate B MAX fuel isPaused aiTargetObject delta ui
        (mkWorld (Some sc) (Some line) points bodies) s
      = (Some (ui', w'), s') /\
      w_spacecraft w' = Some sc' /\
      hd_error (shipTrajectoryPoints w') = Some (sm_position (sc_mesh sc')).
Proof.
  intros B MAX fuel isPaused tgt delta ui sc line points bodies s
    Hmax Hlen Hfuel.
  destruct (animate_result B MAX fuel isPaused tgt delta ui
              (mkWorld (Some sc) (Some line) points bodies) s Hlen
              ltac:(lia))
    as (line' & points' & Hrun & Htraj & _).
  cbn [w_spacecraft shipTrajectoryLine shipTrajectoryPoints] in *.
  destruct (updateSpacecraft_result sc
              (fst (updateAiPilot B (Some sc) tgt (ui_inputState ui) delta
                      (isAiPilotActive ui) s)) delta
              (snd (updateAiPilot B (Some sc) tgt (ui_inputState ui) delta
                      (isAiPilotActive ui) s)))
    as (sc' & Hsc & _).
  rewrite Hsc in *.
  eexists _, _, sc', _. split; [exact Hrun|]. split; [reflexivity|].
  cbn [shipTrajectoryPoints].
  assert (Hcase : moved sc' points
                  \/ exists rest, points = sm_position (sc_mesh sc') :: rest).
  { destruct points as [|newest rest]; [left; exact I|].
    destruct (V3.equals newest (sm_position (sc_mesh sc'))) eqn:E.
    - right. apply equals_true_iff in E. subst newest. eauto.
    - left. cbn [moved]. intros ->. rewrite equals_refl in E. discriminate. }
  destruct Hcase as [Hmoved|(rest & ->)].
  - destruct (updateTrajectoryLine_moved_head fuel sc' line points MAX
                Hmax Hfuel Hmoved) as (l1 & kept & Hres & Hhd).
    rewrite Hres in Htraj. injection Htraj as _ <-. exact Hhd.
  - rewrite updateTrajectoryLine_same in Htraj.
    injection Htraj as _ <-. reflexivity.
Qed.

Lemma animate_records_new_position_witness :
  exists ui' w' sc' s',
    animate 1 500 1 false (Some targetAhead) 0.016
      (mkUiState cleared true)
      (mkWorld (Some craftAtOrigin) (Some (mkLine [])) [] [createSun])
      (mkScratch V3.zero V3.zero V3.zero)
    = (Some (ui', w'), s') /\
    w_spacecraft w' = Some sc' /\
    hd_error (shipTrajectoryPoints w') = Some (sm_position (sc_mesh sc')).
Proof.
  apply animate_records_new_position.
  - lra.
  - simpl. lra.
  - simpl. lia.
Defined.

(** The pause flag freezes the bodies and nothing else: a paused frame
    leaves the input record, the craft, the trajectory and the scratch
    vectors exactly as the unpaused frame does, and differs from it only
    in keeping the bodies as they were instead of advancing them. *)
Theorem animate_pause_freezes_only_bodies :
  forall (B MAX : R) (fuel : nat) (aiTargetObject : option TargetMesh)
         (delta : R) (ui : UiState) (w : World) (s : Scratch),
    INR (List.length (shipTrajectoryPoints w)) <= MAX ->
    (1 <= fuel)%nat ->
    exists ui' craft' line' points' s',
      animate B MAX fuel true aiTargetObject delta ui w s
      = (Some (ui', mkWorld craft' line' points' (celestialBodies_ w)), s') /\
      animate B MAX fuel false aiTargetObject delta ui w s
      = (Some (ui', mkWorld craft' line' points'
                      (updateCelestials (celestialBodies_ w) delta false)), s').
Proof.
  intros B MAX fuel tgt delta ui w s Hlen Hfuel.
  destruct (animate_result B MAX fuel true tgt delta ui w s Hlen Hfuel)
    as (l1 & p1 & Hrun1 & Ht1 & _).
  destruct (animate_result B MAX fuel false tgt delta ui w s Hlen Hfuel)
    as (l2 & p2 & Hrun2 & Ht2 & _).
  rewrite Ht1 in Ht2. injection Ht2 as <- <-.
  eexists _, _, l1, p1, _. split; [exact Hrun1 | exact Hrun2].
Qed.

Lemma animate_pause_freezes_only_bodies_witness :
  exists ui' craft' line' points' s',
    animate 1 500 1 true (Some targetAhead) 0.016 (mkUiState cleared true)
      (mkWorld (Some craftAtOrigin) (Some (mkLine [])) [] [createSun])
      (mkScratch V3.zero V3.zero V3.zero)
    = (Some (ui', mkWorld craft' line' points' [createSun]), s') /\
    animate 1 500 1 false (Some targetAhead) 0.016 (mkUiState cleared true)
      (mkWorld (Some craftAtOrigin) (Some (mkLine [])) [] [createSun])
      (mkScratch V3.zero V3.zero V3.zero)
    = (Some (ui', mkWorld craft' line' points'
                    (updateCelestials [createSun] 0.016 false)), s').
Proof.
  apply (animate_pause_freezes_only_bodies 1 500 1 (Some targetAhead) 0.016
           (mkUiState cleared true)
           (mkWorld (Some craftAtOrigin) (Some (mkLine [])) [] [createSun])).
  - simpl. lra.
  - lia.
Defined.

(** ** uiController.js: easing, and the prediction panel *)

Lemma cube_le (a b : R) : a <= b -> a * a * a <= b * b * b.
Proof.
  intros H.
  assert (Hq : 0 <= b * b + a * b + a * a) by nra.
  replace (b * b * b) with (a * a * a + (b - a) * (b * b + a * b + a * a))
    by ring.
  assert (0 <= (b - a) * (b * b + a * b + a * a)) by (apply Rmult_le_pos; lra).
  lra.
Qed.

Lemma easeInOutCubic_low (t : R) :
  t < 0.5 -> easeInOutCubic t = 4 * (t * t * t).
Proof.
  intros H. unfold easeInOutCubic. destruct (Rlt_dec t 0.5); [ring | lra].
Qed.

Lemma easeInOutCubic_high (t : R) :
  0.5 <= t -> easeInOutCubic t = 1 - 4 * ((1 - t) * (1 - t) * (1 - t)).
Proof.
  intros H. unfold easeInOutCubic. destruct (Rlt_dec t 0.5); [lra|].
  simpl pow. field.
Qed.

(** [easeInOutCubic] starts at 0, passes through one half at one half and
    ends at 1; it is symmetric about that midpoint, never decreases, and
    so maps the progress range [[0, 1]] into [[0, 1]]. *)
Theorem easeInOutCubic_shape :
  easeInOutCubic 0 = 0 /\ easeInOutCubic 0.5 = 0.5 /\ easeInOutCubic 1 = 1 /\
  (forall t : R, easeInOutCubic (1 - t) = 1 - easeInOutCubic t) /\
  (forall t u : R, t <= u -> easeInOutCubic t <= easeInOutCubic u) /\
  (forall t : R, 0 <= t <= 1 -> 0 <= easeInOutCubic t <= 1).
Proof.
  assert (H0 : easeInOutCubic 0 = 0) by (rewrite easeInOutCubic_low; lra).
  assert (H1 : easeInOutCubic 1 = 1) by (rewrite easeInOutCubic_high; lra).
  assert (Hmono : forall t u : R, t <= u ->
                    easeInOutCubic t <= easeInOutCubic u).
  { intros t u Htu.
    destruct (Rlt_dec t 0.5) as [Ht|Ht], (Rlt_dec u 0.5) as [Hu|Hu].
    - rewrite !easeInOutCubic_low by assumption.
      pose proof (cube_le t u Htu). lra.
    - rewrite easeInOutCubic_low by assumption.
      rewrite easeInOutCubic_high by lra.
      pose proof (cube_le t 0.5 ltac:(lra)).
      pose proof (cube_le (1 - u) 0.5 ltac:(lra)). lra.
    - lra.
    - rewrite !easeInOutCubic_high by lra.
      pose proof (cube_le (1 - u) (1 - t) ltac:(lra)). lra. }
  repeat split; try assumption.
  - rewrite easeInOutCubic_high; lra.
  - intros t. destruct (Rlt_dec t 0.5) as [Ht|Ht].
    + rewrite (easeInOutCubic_low t) by assumption.
      rewrite easeInOutCubic_high by lra.
      replace (1 - (1 - t)) with t by ring. ring.
    + destruct (Req_dec_T t 0.5) as [->|Hne].
      * replace (1 - 0.5) with 0.5 by lra.
        rewrite easeInOutCubic_high; lra.
      * rewrite (easeInOutCubic_high t) by lra.
        rewrite easeInOutCubic_low by lra. ring.
  - rewrite <- H0. apply Hmono. lra.
  - rewrite <- H1. apply Hmono. lra.
Qed.

Lemma easeInOutCubic_shape_witness :
  easeInOutCubic 0.25 <= easeInOutCubic 0.75 /\
  0 <= easeInOutCubic 0.75 <= 1.
Proof.
  destruct easeInOutCubic_shape as (_ & _ & _ & _ & Hmono & Hrange).
  split; [apply Hmono; lra | apply Hrange; lra].
Defined.

Lemma panelStep_result (c : PanelCall) (panel : PredictionPanel) (b : Body) :
  c_body c = Some b -> displayed panel = true ->
  exists panel',
    panelStep c panel
    = (panel',
       Some (mkPrediction
               (calculateFuturePosition [] (Some b) 10)
               (perturbed (calculateFuturePosition [] (Some b) 10)
                  (d_x10 (c_draws c)) (d_z10 (c_draws c)) 0.5)
               (calculateFuturePosition [] (Some b) 30)
               (perturbed (calculateFuturePosition [] (Some b) 30)
                  (d_x30 (c_draws c)) (d_z30 (c_draws c)) 1.0)))
    /\ displayed panel' = true.
Proof.
  intros Hb Hd. unfold panelStep, updatePredictionPanelDOM. rewrite Hb, Hd.
  destruct (Rle_dec (anomalyCooldown panel - c_delta c) 0);
    [destruct (Rlt_dec (d_anomaly (c_draws c)) 0.005);
     [|destruct (String.eqb (statusText panel) "Anomaly Detected!")]|];
    eexists; split; reflexivity.
Qed.

(** For a selected body on a displayed panel, the simulated positions
    are the predictions for 10 and 30 ahead, and the perturbed positions
    differ from them by at most 0.25 (horizon 10) and 0.5 (horizon 30) in
    X and in Z, and not at all in Y. *)
Theorem prediction_panel_noise_bounded :
  forall (c : PanelCall) (panel : PredictionPanel) (b : Body),
    c_body c = Some b -> displayed panel = true ->
    isDraw (d_x10 (c_draws c)) -> isDraw (d_z10 (c_draws c)) ->
    isDraw (d_x30 (c_draws c)) -> isDraw (d_z30 (c_draws c)) ->
    exists pr,
      snd (panelStep c panel) = Some pr /\
      simPos10 pr = calculateFuturePosition [] (Some b) 10 /\
      simPos30 pr = calculateFuturePosition [] (Some b) 30 /\
      Rabs (vx (aiPos10 pr) - vx (simPos10 pr)) <= 0.25 /\
      Rabs (vz (aiPos10 pr) - vz (simPos10 pr)) <= 0.25 /\
      vy (aiPos10 pr) = vy (simPos10 pr) /\
      Rabs (vx (aiPos30 pr) - vx (simPos30 pr)) <= 0.5 /\
      Rabs (vz (aiPos30 pr) - vz (simPos30 pr)) <= 0.5 /\
      vy (aiPos30 pr) = vy (simPos30 pr).
Proof.
  intros c panel b Hb Hd H1 H2 H3 H4. unfold isDraw in *.
  destruct (panelStep_result c panel b Hb Hd) as (panel' & Hrun & _).
  rewrite Hrun. cbn [snd]. eexists. split; [reflexivity|].
  cbn [simPos10 simPos30 aiPos10 aiPos30].
  unfold perturbed, V3.add. cbn [vx vy vz].
  repeat split; try (apply Rabs_le; lra); ring.
Qed.

Lemma prediction_panel_noise_bounded_witness :
  let c := mkPanelCall (Some earthAtQuarterTurn) 0.016
             (mkDraws 0.5 0 0.99 0.3 0.7) in
  let panel := mkPredictionPanel 0 "Nominal" "nominal" true in
  exists pr,
    snd (panelStep c panel) = Some pr /\
    simPos10 pr = calculateFuturePosition [] (Some earthAtQuarterTurn) 10 /\
    simPos30 pr = calculateFuturePosition [] (Some earthAtQuarterTurn) 30 /\
    Rabs (vx (aiPos10 pr) - vx (simPos10 pr)) <= 0.25 /\
    Rabs (vz (aiPos10 pr) - vz (simPos10 pr)) <= 0.25 /\
    vy (aiPos10 pr) = vy (simPos10 pr) /\
    Rabs (vx (aiPos30 pr) - vx (simPos30 pr)) <= 0.5 /\
    Rabs (vz (aiPos30 pr) - vz (simPos30 pr)) <= 0.5 /\
    vy (aiPos30 pr) = vy (simPos30 pr).
Proof.
  intros c panel.
  apply (prediction_panel_noise_bounded c panel earthAtQuarterTurn);
    try reflexivity; unfold isDraw; simpl; lra.
Defined.

(** While the cooldown lasts, calls change neither the status text nor
    its class, whatever is drawn. *)
Lemma panel_status_during_cooldown (calls : list PanelCall) :
  forall panel : PredictionPanel,
    Forall (fun c => 0 <= c_delta c) calls ->
    elapsed (map c_delta calls) < anomalyCooldown panel ->
    statusText (updatePanelSeq calls panel) = statusText panel /\
    statusClass (updatePanelSeq calls panel) = statusClass panel.
Proof.
  induction calls as [|c rest IH]; intros panel Hpos Hsum; [split; reflexivity|].
  inversion Hpos as [|c' l Hc Hrest]; subst.
  cbn [map elapsed fold_right] in Hsum. fold (elapsed (map c_delta rest)) in Hsum.
  assert (Hrest_nonneg : 0 <= elapsed (map c_delta rest)).
  { clear - Hrest. induction Hrest as [|x l Hx _ IHl]; cbn; [lra|].
    fold (elapsed (map c_delta l)). lra. }
  cbn [updatePanelSeq].
  assert (Hstep : statusText (fst (panelStep c panel)) = statusText panel /\
                  statusClass (fst (panelStep c panel)) = statusClass panel /\
                  elapsed (map c_delta rest)
                  < anomalyCooldown (fst (panelStep c panel))).
  { unfold panelStep, updatePredictionPanelDOM.
    destruct (c_body c) as [b|]; [|cbn; repeat split; lra].
    destruct (displayed panel); [|cbn; repeat split; lra].
    destruct (Rle_dec (anomalyCooldown panel - c_delta c) 0) as [Hle|Hgt];
      [lra|]. cbn. repeat split. lra. }
  destruct Hstep as (Ht & Hc' & Hcd).
  destruct (IH (fst (panelStep c panel)) Hrest Hcd) as [IHt IHc].
  split; congruence.
Qed.

(** An anomaly is raised when the cooldown has run out and the draw is
    below 0.005; once raised it stays on the panel, text and class, over
    all further calls until more than 5 time units have elapsed. *)
Theorem anomaly_stays_for_five_units :
  forall (c : PanelCall) (b : Body) (panel : PredictionPanel)
         (calls : list PanelCall),
    c_body c = Some b -> displayed panel = true ->
    anomalyCooldown panel - c_delta c <= 0 ->
    d_anomaly (c_draws c) < 0.005 ->
    Forall (fun c' => 0 <= c_delta c') calls ->
    elapsed (map c_delta calls) < 5 ->
    let raised := fst (panelStep c panel) in
    statusText raised = "Anomaly Detected!"%string /\
    statusText (updatePanelSeq calls raised) = "Anomaly Detected!"%string /\
    statusClass (updatePanelSeq calls raised) = "anomaly"%string.
Proof.
  intros c b panel calls Hb Hd Hcd Hdraw Hpos Hsum raised.
  assert (Hr : raised
               = mkPredictionPanel 5.0 "Anomaly Detected!" "anomaly" true).
  { unfold raised, panelStep, updatePredictionPanelDOM. rewrite Hb, Hd.
    destruct (Rle_dec (anomalyCooldown panel - c_delta c) 0); [|lra].
    destruct (Rlt_dec (d_anomaly (c_draws c)) 0.005); [|lra].
    reflexivity. }
  destruct (panel_status_during_cooldown calls raised Hpos) as [Ht Hc].
  { rewrite Hr. cbn [anomalyCooldown]. lra. }
  rewrite Ht, Hc, Hr. repeat split.
Qed.

Lemma anomaly_stays_for_five_units_witness :
  let c := mkPanelCall (Some earthAtQuarterTurn) 0.016
             (mkDraws 0.001 0 0 0 0) in
  let panel := mkPredictionPanel 0 "Nominal" "nominal" true in
  let calls := [mkPanelCall (Some earthAtQuarterTurn) 2 (mkDraws 0 0 0 0 0);
                mkPanelCall None 1 (mkDraws 0.9 0 0 0 0)] in
  let raised := fst (panelStep c panel) in
  statusText raised = "Anomaly Detected!"%string /\
  statusText (updatePanelSeq calls raised) = "Anomaly Detected!"%string /\
  statusClass (updatePanelSeq calls raised) = "anomaly"%string.
Proof.
  intros c panel calls.
  apply (anomaly_stays_for_five_units c earthAtQuarterTurn panel calls).
  - reflexivity.
  - reflexivity.
  - simpl. lra.
  - simpl. lra.
  - repeat constructor; simpl; lra.
  - simpl. lra.
Defined.
